(** * ASR rendering library: the ES2 shader program, the mesh object and the
      geometry generators of the sample programs

    Shallow embedding of
      - include/renderer/es2_shader.h   (class [asr::ES2Shader]),
      - include/objects/mesh.h          (class [asr::Mesh]),
      - tests/rectangle_test.cpp        (rectangle generators, fragment shader),
      - tests/transform1_test.cpp       (sphere generator, fragment shader).

    Conventions.
      - [unsigned int] / [GLuint] values are integers in [0, 2^32), [int] /
        [GLint] values are integers in [-2^31, 2^31); every conversion and
        every unsigned operation has its wrap-around written out.
      - The OpenGL implementation is not part of the repository.  Every value
        a GL entry point hands back to the program is an input of the model
        (a record of driver replies), every GL call the program makes is
        appended to a transcript, and everything sent to [std::cerr] is
        appended to a string.
      - [float] arithmetic is kept abstract behind the [FloatOps] interface;
        all results hold for every implementation of it. *)

From Stdlib Require Import ZArith List String Ascii Bool Lia.
Import ListNotations.
Open Scope Z_scope.

(* ================================================================== *)
(** * Machine integers *)

Module CInt.

Definition UINT_MAX : Z := 4294967295.

(** Conversion to [unsigned int] / [GLuint]: reduction modulo 2^32. *)
Definition to_uint (z : Z) : Z := z mod 4294967296.

(** Conversion to [int] / [GLint]: the two's complement reading. *)
Definition to_int (z : Z) : Z := (z + 2147483648) mod 4294967296 - 2147483648.

End CInt.

(* ================================================================== *)
(** * The OpenGL calls made by the shader class *)

Module GL.

Inductive ShaderType := GL_VERTEX_SHADER | GL_FRAGMENT_SHADER.

Inductive PName := GL_COMPILE_STATUS | GL_LINK_STATUS | GL_INFO_LOG_LENGTH.

Definition GL_FALSE : Z := 0.

(** [shader_type == GL_VERTEX_SHADER] *)
Definition is_vertex_shader (type : ShaderType) : bool :=
  match type with GL_VERTEX_SHADER => true | GL_FRAGMENT_SHADER => false end.

(** One entry of the transcript: the entry point, its arguments, and, for
    the entry points that hand a value back, that value. *)
Inductive Call :=
| CreateShader (type : ShaderType) (ret : Z)
| ShaderSource (shader : Z) (source : string)
| CompileShader (shader : Z)
| GetShaderiv (shader : Z) (pname : PName) (out : Z)
| GetShaderInfoLog (shader : Z) (buf_size : Z) (out : string)
| CreateProgram (ret : Z)
| AttachShader (program shader : Z)
| LinkProgram (program : Z)
| GetProgramiv (program : Z) (pname : PName) (out : Z)
| GetProgramInfoLog (program : Z) (buf_size : Z) (out : string)
| DetachShader (program shader : Z)
| DeleteShader (shader : Z)
| GetAttribLocation (program : Z) (name : string) (ret : Z)
| GetUniformLocation (program : Z) (name : string) (ret : Z)
| DeleteProgram (program : Z)
| UseProgram (program : Z).

(** What the driver answers while one shader stage is created and compiled
    ([_compile_shader]). *)
Record StageReplies := {
  shader_name : Z;            (* glCreateShader *)
  compile_status : Z;         (* glGetShaderiv GL_COMPILE_STATUS *)
  shader_log_length : Z;      (* glGetShaderiv GL_INFO_LOG_LENGTH *)
  shader_log : string         (* glGetShaderInfoLog *)
}.

(** What the driver answers while a program is created and linked
    ([_link_shader]). *)
Record LinkReplies := {
  program_name : Z;                 (* glCreateProgram *)
  link_status : Z;                  (* glGetProgramiv GL_LINK_STATUS *)
  program_log_length : Z;           (* glGetProgramiv GL_INFO_LOG_LENGTH *)
  program_log : string;             (* glGetProgramInfoLog *)
  attrib_location : string -> Z;    (* glGetAttribLocation, by name *)
  uniform_location : string -> Z    (* glGetUniformLocation, by name *)
}.

(** The replies consumed by one call of [compile]. *)
Record Replies := {
  vertex_stage : StageReplies;
  fragment_stage : StageReplies;
  link_stage : LinkReplies
}.

Definition is_delete_shader (c : Call) : bool :=
  match c with DeleteShader _ => true | _ => false end.

Definition is_delete_program (c : Call) : bool :=
  match c with DeleteProgram _ => true | _ => false end.

Definition is_create_shader (t : ShaderType) (c : Call) : bool :=
  match c, t with
  | CreateShader GL_VERTEX_SHADER _, GL_VERTEX_SHADER => true
  | CreateShader GL_FRAGMENT_SHADER _, GL_FRAGMENT_SHADER => true
  | _, _ => false
  end.

(** The calls that make up the link step. *)
Definition is_link_call (c : Call) : bool :=
  match c with
  | CreateProgram _ | AttachShader _ _ | LinkProgram _ => true
  | _ => false
  end.

Definition is_location_query (c : Call) : bool :=
  match c with
  | GetAttribLocation _ _ _ | GetUniformLocation _ _ _ => true
  | _ => false
  end.

(** The calls that create or delete a program object. *)
Definition touches_program (c : Call) : bool :=
  match c with
  | CreateProgram _ | DeleteProgram _ => true
  | _ => false
  end.

(** Shader objects created and not yet deleted, read off a transcript. *)
Fixpoint live_shaders (live : list Z) (t : list Call) : list Z :=
  match t with
  | [] => live
  | CreateShader _ s :: t' => live_shaders (s :: live) t'
  | DeleteShader s :: t' => live_shaders (remove Z.eq_dec s live) t'
  | _ :: t' => live_shaders live t'
  end.

(** Program objects created and not yet deleted, read off a transcript. *)
Fixpoint live_programs (live : list Z) (t : list Call) : list Z :=
  match t with
  | [] => live
  | CreateProgram p :: t' => live_programs (p :: live) t'
  | DeleteProgram p :: t' => live_programs (remove Z.eq_dec p live) t'
  | _ :: t' => live_programs live t'
  end.

End GL.

(* ================================================================== *)
(** * include/renderer/es2_shader.h *)

Module ES2Shader.

Import GL CInt.

(** The name-to-location tables, in the iteration order of the container. *)
Definition LocationMap := list (string * Z).

Fixpoint lookup (name : string) (m : LocationMap) : option Z :=
  match m with
  | [] => None
  | (k, v) :: m' => if String.eqb k name then Some v else lookup name m'
  end.

(** [m[name] = v]: overwrite the entry of [name]; a missing key is inserted
    ([operator[]] default-constructs it).  The loops of [_link_shader] only
    assign to keys that are present. *)
Fixpoint assign (name : string) (v : Z) (m : LocationMap) : LocationMap :=
  match m with
  | [] => [(name, v)]
  | (k, w) :: m' =>
      if String.eqb k name then (k, v) :: m' else (k, w) :: assign name v m'
  end.

(** Modelled from the spec: the data members of the base class [Shader]
    (renderer/shader.h is not part of the sources) that [ES2Shader] uses: the
    source text of the two stages, the attribute and uniform tables (name to
    location), the program handle ([int], -1 for none) and the dead flag. *)
Record Object := {
  _vertex_shader_source : string;
  _fragment_shader_source : string;
  _attributes : LocationMap;
  _uniforms : LocationMap;
  _program : Z;
  _dead : bool
}.

(** The object with one data member replaced. *)
Definition with_program (p : Z) (o : Object) : Object :=
  {| _vertex_shader_source := _vertex_shader_source o;
     _fragment_shader_source := _fragment_shader_source o;
     _attributes := _attributes o; _uniforms := _uniforms o;
     _program := p; _dead := _dead o |}.

Definition with_dead (d : bool) (o : Object) : Object :=
  {| _vertex_shader_source := _vertex_shader_source o;
     _fragment_shader_source := _fragment_shader_source o;
     _attributes := _attributes o; _uniforms := _uniforms o;
     _program := _program o; _dead := d |}.

Definition with_attributes (m : LocationMap) (o : Object) : Object :=
  {| _vertex_shader_source := _vertex_shader_source o;
     _fragment_shader_source := _fragment_shader_source o;
     _attributes := m; _uniforms := _uniforms o;
     _program := _program o; _dead := _dead o |}.

Definition with_uniforms (m : LocationMap) (o : Object) : Object :=
  {| _vertex_shader_source := _vertex_shader_source o;
     _fragment_shader_source := _fragment_shader_source o;
     _attributes := _attributes o; _uniforms := m;
     _program := _program o; _dead := _dead o |}.

(** The object together with the world it acts on. *)
Record State := {
  this : Object;
  gl_calls : list Call;       (* transcript, oldest call first *)
  cerr : string               (* everything written to std::cerr *)
}.

Definition M (A : Type) : Type := State -> A * State.

Definition ret {A} (a : A) : M A := fun s => (a, s).

Definition bind {A B} (c : M A) (k : A -> M B) : M B :=
  fun s => let (a, s') := c s in k a s'.

Declare Scope shader_scope.
Delimit Scope shader_scope with shader.
Notation "x <- c ;; k" := (bind c (fun x => k))
  (at level 100, c at next level, right associativity) : shader_scope.
Notation "c ;; k" := (bind c (fun _ => k))
  (at level 100, right associativity) : shader_scope.
Open Scope shader_scope.

Definition get {A} (field : Object -> A) : M A := fun s => (field (this s), s).

Definition update (f : Object -> Object) : M unit :=
  fun s => (tt, {| this := f (this s); gl_calls := gl_calls s; cerr := cerr s |}).

Definition set_program (p : Z) : M unit := update (with_program p).

Definition set_dead (d : bool) : M unit := update (with_dead d).

Definition set_attribute (name : string) (v : Z) : M unit :=
  update (fun o => with_attributes (assign name v (_attributes o)) o).

Definition set_uniform (name : string) (v : Z) : M unit :=
  update (fun o => with_uniforms (assign name v (_uniforms o)) o).

(** A GL call: one more line of the transcript. *)
Definition call (c : Call) : M unit :=
  fun s => (tt, {| this := this s; gl_calls := gl_calls s ++ [c]; cerr := cerr s |}).

(** [std::cerr << text]. *)
Definition write_cerr (text : string) : M unit :=
  fun s => (tt, {| this := this s; gl_calls := gl_calls s; cerr := cerr s ++ text |}).

Definition when (b : bool) (c : M unit) : M unit := if b then c else ret tt.

Fixpoint for_each {A} (xs : list A) (body : A -> M unit) : M unit :=
  match xs with
  | [] => ret tt
  | x :: xs' => body x ;; for_each xs' body
  end.

(** ** The GL entry points.  A value-returning entry point takes the
    driver's reply and converts it to its C return type. *)

Definition glCreateShader (type : ShaderType) (reply : Z) : M Z :=
  call (CreateShader type (to_uint reply)) ;; ret (to_uint reply).

Definition glShaderSource (shader : Z) (source : string) : M unit :=
  call (ShaderSource shader source).

Definition glCompileShader (shader : Z) : M unit :=
  call (CompileShader shader).

Definition glGetShaderiv (shader : Z) (pname : PName) (reply : Z) : M Z :=
  call (GetShaderiv shader pname (to_int reply)) ;; ret (to_int reply).

Definition glGetShaderInfoLog (shader buf_size : Z) (reply : string) : M string :=
  call (GetShaderInfoLog shader buf_size reply) ;; ret reply.

Definition glCreateProgram (reply : Z) : M Z :=
  call (CreateProgram (to_uint reply)) ;; ret (to_uint reply).

Definition glAttachShader (program shader : Z) : M unit :=
  call (AttachShader program shader).

Definition glLinkProgram (program : Z) : M unit :=
  call (LinkProgram program).

Definition glGetProgramiv (program : Z) (pname : PName) (reply : Z) : M Z :=
  call (GetProgramiv program pname (to_int reply)) ;; ret (to_int reply).

Definition glGetProgramInfoLog (program buf_size : Z) (reply : string) : M string :=
  call (GetProgramInfoLog program buf_size reply) ;; ret reply.

Definition glDetachShader (program shader : Z) : M unit :=
  call (DetachShader program shader).

Definition glDeleteShader (shader : Z) : M unit :=
  call (DeleteShader shader).

Definition glGetAttribLocation (program : Z) (name : string) (reply : Z) : M Z :=
  call (GetAttribLocation program name (to_int reply)) ;; ret (to_int reply).

Definition glGetUniformLocation (program : Z) (name : string) (reply : Z) : M Z :=
  call (GetUniformLocation program name (to_int reply)) ;; ret (to_int reply).

Definition glDeleteProgram (program : Z) : M unit :=
  call (DeleteProgram program).

Definition glUseProgram (program : Z) : M unit :=
  call (UseProgram program).

(** [std::endl] *)
Definition endl : string := String (ascii_of_nat 10) EmptyString.

(** ** The member functions *)

(** [int _compile_shader(GLenum shader_type)] *)
Definition _compile_shader (r : StageReplies) (shader_type : ShaderType) : M Z :=
  shader_source <-
    (if is_vertex_shader shader_type
     then get _vertex_shader_source
     else get _fragment_shader_source) ;;
  shader_object <- glCreateShader shader_type (shader_name r) ;;
  glShaderSource shader_object shader_source ;;
  glCompileShader shader_object ;;
  status <- glGetShaderiv shader_object GL_COMPILE_STATUS (compile_status r) ;;
  if status =? GL_FALSE then
    info_log_length <-
      glGetShaderiv shader_object GL_INFO_LOG_LENGTH (shader_log_length r) ;;
    when (0 <? info_log_length)
      (info_log <- glGetShaderInfoLog shader_object info_log_length (shader_log r) ;;
       write_cerr ("Failed to compile a vertex shader" ++ endl
                   ++ "Compilation log:" ++ endl
                   ++ info_log ++ endl ++ endl)) ;;
    set_program (-1) ;;
    ret (-1)
  else
    ret (to_int shader_object).

(** [int _link_shader(GLuint vertex_shader_object, GLuint fragment_shader_object)] *)
Definition _link_shader (r : LinkReplies)
    (vertex_shader_object fragment_shader_object : Z) : M Z :=
  shader_program <- glCreateProgram (program_name r) ;;
  glAttachShader shader_program vertex_shader_object ;;
  glAttachShader shader_program fragment_shader_object ;;
  glLinkProgram shader_program ;;
  status <- glGetProgramiv shader_program GL_LINK_STATUS (link_status r) ;;
  if status =? GL_FALSE then
    info_log_length <-
      glGetProgramiv shader_program GL_INFO_LOG_LENGTH (program_log_length r) ;;
    when (0 <? info_log_length)
      (info_log <- glGetProgramInfoLog shader_program info_log_length (program_log r) ;;
       write_cerr ("Failed to link a shader program" ++ endl
                   ++ "Linker log:" ++ endl
                   ++ info_log ++ endl ++ endl)) ;;
    set_program (-1) ;;
    ret (-1)
  else
    glDetachShader shader_program vertex_shader_object ;;
    glDetachShader shader_program fragment_shader_object ;;
    glDeleteShader vertex_shader_object ;;
    glDeleteShader fragment_shader_object ;;
    attributes <- get _attributes ;;
    for_each attributes (fun attribute =>
      location <- glGetAttribLocation shader_program (fst attribute)
                    (attrib_location r (fst attribute)) ;;
      set_attribute (fst attribute) location) ;;
    uniforms <- get _uniforms ;;
    for_each uniforms (fun uniform =>
      location <- glGetUniformLocation shader_program (fst uniform)
                    (uniform_location r (fst uniform)) ;;
      set_uniform (fst uniform) location) ;;
    ret (to_int shader_program).

(** [void cleanup()] *)
Definition cleanup : M unit :=
  program <- get _program ;;
  when (negb (program =? -1)) (glDeleteProgram (to_uint program)) ;;
  set_program (-1) ;;
  set_dead false.

(** [void compile()] *)
Definition compile (r : Replies) : M unit :=
  cleanup ;;
  vertex_shader_object <- _compile_shader (vertex_stage r) GL_VERTEX_SHADER ;;
  if vertex_shader_object =? -1 then
    set_dead true
  else
    fragment_shader_object <- _compile_shader (fragment_stage r) GL_FRAGMENT_SHADER ;;
    if fragment_shader_object =? -1 then
      set_dead true
    else
      shader_program <- _link_shader (link_stage r)
                          (to_uint vertex_shader_object)
                          (to_uint fragment_shader_object) ;;
      if shader_program =? -1 then
        set_dead true
      else
        set_program shader_program.

(** [void use()] *)
Definition use : M unit :=
  program <- get _program ;;
  when (negb (program =? -1)) (glUseProgram (to_uint program)).

(** [~ES2Shader()] *)
Definition destroy : M unit :=
  program <- get _program ;;
  when (negb (program =? -1)) (glDeleteProgram (to_uint program)).

(** Modelled from the spec: the constructor of the base class [Shader]
    (renderer/shader.h is not part of the sources).  The spec's data model
    has the program start Uninitialized, with every declared attribute and
    uniform name mapped to -1 until resolved. *)
Definition construct (vertex_shader_source fragment_shader_source : string)
    (attributes uniforms : list string) : State :=
  {| this :=
       {| _vertex_shader_source := vertex_shader_source;
          _fragment_shader_source := fragment_shader_source;
          _attributes := fold_left (fun m name => assign name (-1) m) attributes [];
          _uniforms := fold_left (fun m name => assign name (-1) m) uniforms [];
          _program := -1;
          _dead := false |};
     gl_calls := [];
     cerr := EmptyString |}.

(** Modelled from the spec: the three lifecycle states of the data model,
    read off the two fields the class keeps. *)
Inductive Lifecycle := Uninitialized | Compiled | Dead.

Definition lifecycle (o : Object) : Lifecycle :=
  if _dead o then Dead
  else if _program o =? -1 then Uninitialized
  else Compiled.

(** The operations of the public interface, and a run of them. *)
Inductive Op :=
| OpCompile (r : Replies)
| OpCleanup
| OpUse.

Definition step (op : Op) (s : State) : State :=
  match op with
  | OpCompile r => snd (compile r s)
  | OpCleanup => snd (cleanup s)
  | OpUse => snd (use s)
  end.

Definition run (ops : list Op) (s : State) : State :=
  fold_left (fun s op => step op s) ops s.

(** The stage compiled, and the driver handed out an object name that the
    [int] result of [_compile_shader] can tell from its failure value. *)
Definition stage_ok (r : StageReplies) : Prop :=
  to_int (compile_status r) <> GL_FALSE /\ to_int (to_uint (shader_name r)) <> -1.

Definition stage_failed (r : StageReplies) : Prop :=
  to_int (compile_status r) = GL_FALSE.

Definition link_ok (r : LinkReplies) : Prop :=
  to_int (link_status r) <> GL_FALSE.

Definition link_failed (r : LinkReplies) : Prop :=
  to_int (link_status r) = GL_FALSE.

(** Both stages compile, the link succeeds, and the program name can be
    told from the failure value. *)
Definition succeeds (r : Replies) : Prop :=
  stage_ok (vertex_stage r) /\ stage_ok (fragment_stage r) /\
  link_ok (link_stage r) /\ to_int (to_uint (program_name (link_stage r))) <> -1.

(** What a failed stage writes to [std::cerr]. *)
Definition compile_report (r : StageReplies) : string :=
  if 0 <? to_int (shader_log_length r) then
    "Failed to compile a vertex shader" ++ endl ++ "Compilation log:" ++ endl
      ++ shader_log r ++ endl ++ endl
  else EmptyString.

(** What a failed link writes to [std::cerr]. *)
Definition link_report (r : LinkReplies) : string :=
  if 0 <? to_int (program_log_length r) then
    "Failed to link a shader program" ++ endl ++ "Linker log:" ++ endl
      ++ program_log r ++ endl ++ endl
  else EmptyString.

(** The transcript of [cleanup] on the object [o]. *)
Definition cleanup_calls (o : Object) : list Call :=
  if _program o =? -1 then [] else [DeleteProgram (to_uint (_program o))].

(** The source text [_compile_shader] selects for a stage. *)
Definition source_of (type : ShaderType) (o : Object) : string :=
  match type with
  | GL_VERTEX_SHADER => _vertex_shader_source o
  | GL_FRAGMENT_SHADER => _fragment_shader_source o
  end.

(** The transcript of [_compile_shader] up to the status query. *)
Definition stage_calls (r : StageReplies) (type : ShaderType) (source : string)
    : list Call :=
  let shader := to_uint (shader_name r) in
  [CreateShader type shader; ShaderSource shader source; CompileShader shader;
   GetShaderiv shader GL_COMPILE_STATUS (to_int (compile_status r))].

(** The transcript of the failure branch of [_compile_shader]. *)
Definition stage_log_calls (r : StageReplies) : list Call :=
  let shader := to_uint (shader_name r) in
  let info_log_length := to_int (shader_log_length r) in
  GetShaderiv shader GL_INFO_LOG_LENGTH info_log_length
  :: (if 0 <? info_log_length
      then [GetShaderInfoLog shader info_log_length (shader_log r)]
      else []).

(** The transcript of [_link_shader] up to the status query. *)
Definition link_calls (r : LinkReplies) (vertex_shader_object fragment_shader_object : Z)
    : list Call :=
  let program := to_uint (program_name r) in
  [CreateProgram program;
   AttachShader program vertex_shader_object;
   AttachShader program fragment_shader_object;
   LinkProgram program;
   GetProgramiv program GL_LINK_STATUS (to_int (link_status r))].

(** The transcript of the failure branch of [_link_shader]. *)
Definition link_log_calls (r : LinkReplies) : list Call :=
  let program := to_uint (program_name r) in
  let info_log_length := to_int (program_log_length r) in
  GetProgramiv program GL_INFO_LOG_LENGTH info_log_length
  :: (if 0 <? info_log_length
      then [GetProgramInfoLog program info_log_length (program_log r)]
      else []).

(** The transcript of the success branch of [_link_shader], for the tables
    [attributes] and [uniforms]. *)
Definition resolve_calls (r : LinkReplies)
    (vertex_shader_object fragment_shader_object : Z)
    (attributes uniforms : LocationMap) : list Call :=
  let program := to_uint (program_name r) in
  [DetachShader program vertex_shader_object;
   DetachShader program fragment_shader_object;
   DeleteShader vertex_shader_object;
   DeleteShader fragment_shader_object]
  ++ map (fun attribute =>
            GetAttribLocation program (fst attribute)
              (to_int (attrib_location r (fst attribute)))) attributes
  ++ map (fun uniform =>
            GetUniformLocation program (fst uniform)
              (to_int (uniform_location r (fst uniform)))) uniforms.

(** A table after each of the names in [names] was assigned its location. *)
Definition resolve (location : string -> Z) (names : LocationMap) (m : LocationMap)
    : LocationMap :=
  fold_left (fun m entry => assign (fst entry) (to_int (location (fst entry))) m)
            names m.

(** The object after the success branch of [_link_shader]. *)
Definition resolved (r : LinkReplies) (o : Object) : Object :=
  with_uniforms (resolve (uniform_location r) (_uniforms o) (_uniforms o))
    (with_attributes (resolve (attrib_location r) (_attributes o) (_attributes o)) o).

(** The ways a call of [compile] can go, by the driver's replies.  A reply
    is unusable when the object name, read as [int], is the failure value. *)
Inductive Outcome (r : Replies) : Type :=
| VertexFailed :
    stage_failed (vertex_stage r) -> Outcome r
| VertexUnusable :
    to_int (compile_status (vertex_stage r)) <> GL_FALSE ->
    to_int (to_uint (shader_name (vertex_stage r))) = -1 -> Outcome r
| FragmentFailed :
    stage_ok (vertex_stage r) -> stage_failed (fragment_stage r) -> Outcome r
| FragmentUnusable :
    stage_ok (vertex_stage r) ->
    to_int (compile_status (fragment_stage r)) <> GL_FALSE ->
    to_int (to_uint (shader_name (fragment_stage r))) = -1 -> Outcome r
| LinkFailed :
    stage_ok (vertex_stage r) -> stage_ok (fragment_stage r) ->
    link_failed (link_stage r) -> Outcome r
| ProgramUnusable :
    stage_ok (vertex_stage r) -> stage_ok (fragment_stage r) ->
    link_ok (link_stage r) ->
    to_int (to_uint (program_name (link_stage r))) = -1 -> Outcome r
| Succeeded :
    succeeds r -> Outcome r.

(** The invariant of the class: a dead program holds no program handle. *)
Definition dead_has_no_program (s : State) : Prop :=
  _dead (this s) = true -> _program (this s) = -1.

(** Sample driver replies. *)
Definition stage_accepted (name : Z) : StageReplies :=
  {| shader_name := name; compile_status := 1;
     shader_log_length := 0; shader_log := EmptyString |}.

Definition stage_rejected (name : Z) (log : string) : StageReplies :=
  {| shader_name := name; compile_status := GL_FALSE;
     shader_log_length := Z.of_nat (String.length log) + 1; shader_log := log |}.

Definition sample_locations (name : string) : Z :=
  if String.eqb name "position"%string then 0
  else if String.eqb name "color"%string then 1
  else if String.eqb name "model_view_projection_matrix"%string then 2
  else -1.

Definition link_accepted (name : Z) : LinkReplies :=
  {| program_name := name; link_status := 1;
     program_log_length := 0; program_log := EmptyString;
     attrib_location := sample_locations; uniform_location := sample_locations |}.

Definition link_rejected (name : Z) (log : string) : LinkReplies :=
  {| program_name := name; link_status := GL_FALSE;
     program_log_length := Z.of_nat (String.length log) + 1; program_log := log;
     attrib_location := sample_locations; uniform_location := sample_locations |}.

(** Both stages compile (shader objects 1 and 2), the link of program 3 is
    rejected. *)
Definition replies_link_rejected : Replies :=
  {| vertex_stage := stage_accepted 1;
     fragment_stage := stage_accepted 2;
     link_stage := link_rejected 3 "error: varying not written"%string |}.

Definition replies_accepted (vertex fragment program : Z) : Replies :=
  {| vertex_stage := stage_accepted vertex;
     fragment_stage := stage_accepted fragment;
     link_stage := link_accepted program |}.

Definition replies_vertex_rejected : Replies :=
  {| vertex_stage := stage_rejected 1 "0:1(1): error: syntax error"%string;
     fragment_stage := stage_accepted 2;
     link_stage := link_accepted 3 |}.

Definition replies_fragment_rejected : Replies :=
  {| vertex_stage := stage_accepted 1;
     fragment_stage := stage_rejected 2 "0:1(1): error: syntax error"%string;
     link_stage := link_accepted 3 |}.

Definition sample_vertex_source : string :=
  "attribute vec4 position; void main() { gl_Position = position; }"%string.

Definition sample_fragment_source : string :=
  "void main() { gl_FragColor = vec4(1.0); }"%string.

Definition sample_attributes : list string :=
  ["position"%string; "color"%string; "unused_attribute"%string].

Definition sample_uniforms : list string :=
  ["model_view_projection_matrix"%string; "unused_uniform"%string].

Definition sample_shader : State :=
  construct sample_vertex_source sample_fragment_source
            sample_attributes sample_uniforms.

(** The sample shader after a compile whose vertex stage was rejected. *)
Definition dead_shader : State :=
  snd (compile replies_vertex_rejected sample_shader).

End ES2Shader.

(* ================================================================== *)
(** * Floating point and vectors *)

(** The [float] operations the sources use.  Nothing is assumed of them. *)
Class FloatOps (F : Type) := {
  f_zero : F;                     (* 0.0f *)
  f_half : F;                     (* 0.5f *)
  f_one : F;                      (* 1.0f *)
  fadd : F -> F -> F;
  fsub : F -> F -> F;
  fmul : F -> F -> F;
  fdiv : F -> F -> F;
  float_of_uint : Z -> F;         (* static_cast<float>(unsigned int) *)
  cosf : F -> F;
  sinf : F -> F
}.

Declare Scope float_scope.
Delimit Scope float_scope with flt.
Infix "+" := fadd : float_scope.
Infix "-" := fsub : float_scope.
Infix "*" := fmul : float_scope.
Infix "/" := fdiv : float_scope.

(** The free implementation of the interface: a [float] is the expression
    that computes it.  It serves to run the models on concrete inputs. *)
Inductive FloatTerm :=
| TZero | THalf | TOne
| TInput (name : string)
| TOfUint (n : Z)
| TAdd (a b : FloatTerm) | TSub (a b : FloatTerm)
| TMul (a b : FloatTerm) | TDiv (a b : FloatTerm)
| TCos (a : FloatTerm) | TSin (a : FloatTerm).

#[export] Instance FloatTerm_ops : FloatOps FloatTerm := {|
  f_zero := TZero; f_half := THalf; f_one := TOne;
  fadd := TAdd; fsub := TSub; fmul := TMul; fdiv := TDiv;
  float_of_uint := TOfUint; cosf := TCos; sinf := TSin
|}.

Module Vec.
Section Vectors.
Context {F : Type} `{FloatOps F}.

Record vec2 := { s2 : F; t2 : F }.
Record vec3 := { x3 : F; y3 : F; z3 : F }.
Record vec4 := { x4 : F; y4 : F; z4 : F; w4 : F }.

(** [vec4(f)]: all four components equal to [f]. *)
Definition vec4_of_scalar (f : F) : vec4 :=
  {| x4 := f; y4 := f; z4 := f; w4 := f |}.

(** [vec3(v)] for a [vec4] [v], and the swizzle [v.rgb]: the first three
    components. *)
Definition vec3_of_vec4 (v : vec4) : vec3 :=
  {| x3 := x4 v; y3 := y4 v; z3 := z4 v |}.

Definition vec4_add (a b : vec4) : vec4 :=
  {| x4 := x4 a + x4 b; y4 := y4 a + y4 b;
     z4 := z4 a + z4 b; w4 := w4 a + w4 b |}%flt.

Definition vec4_sub (a b : vec4) : vec4 :=
  {| x4 := x4 a - x4 b; y4 := y4 a - y4 b;
     z4 := z4 a - z4 b; w4 := w4 a - w4 b |}%flt.

Definition vec4_mul (a b : vec4) : vec4 :=
  {| x4 := x4 a * x4 b; y4 := y4 a * y4 b;
     z4 := z4 a * z4 b; w4 := w4 a * w4 b |}%flt.

(** [v.rgb = c]: the first three components replaced, the fourth kept. *)
Definition set_rgb (v : vec4) (c : vec3) : vec4 :=
  {| x4 := x3 c; y4 := y3 c; z4 := z3 c; w4 := w4 v |}.
End Vectors.
Arguments vec2 : clear implicits.
Arguments vec3 : clear implicits.
Arguments vec4 : clear implicits.
End Vec.

(* ================================================================== *)
(** * Loops over an [unsigned int] counter *)

Module Loop.
Import CInt.

(** [for (unsigned int i = start; cond(i); ++i) body(i)], on a state [S].
    [fuel] bounds the number of times the condition is tested; [None]
    means the bound was reached before the loop was left. *)
Fixpoint for_uint {S : Type} (fuel : nat) (cond : Z -> bool)
    (body : Z -> S -> option S) (i : Z) (s : S) : option S :=
  match fuel with
  | O => None
  | Datatypes.S fuel' =>
      if cond i then
        match body i s with
        | Some s' => for_uint fuel' cond body (to_uint (i + 1)) s'
        | None => None
        end
      else Some s
  end.

(** Two optional results that are both absent or both present. *)
Definition together {S T : Type} (a : option S) (b : option T) : Prop :=
  match a, b with
  | Some _, Some _ => True
  | None, None => True
  | _, _ => False
  end.

End Loop.

(** Modelled from the spec: [asr::Vertex] (asr.h is not part of the
    sources): twelve floats, in the order of the spec's data model and of the
    aggregate initialisers of the generators: position, normal, color,
    texture coordinates. *)
Module Asr.
Record Vertex {F : Type} := mkVertex {
  x : F; y : F; z : F;
  nx : F; ny : F; nz : F;
  r : F; g : F; b : F; a : F;
  u : F; v : F
}.
Arguments Vertex : clear implicits.
End Asr.

(** Modelled from the spec: the invariant of a [Geometry] (geometry.h is not
    part of the sources): every index is below the number of vertices. *)
Definition valid_indices {V : Type} (vertices : list V) (indices : list Z) : Prop :=
  Forall (fun index => 0 <= index < Z.of_nat (List.length vertices)) indices.

(* ================================================================== *)
(** * tests/rectangle_test.cpp *)

Module RectangleTest.
Import CInt Loop Vec.

Definition TEXTURING_MODE_ADDITION : Z := 0.
Definition TEXTURING_MODE_SUBTRACTION : Z := 1.
Definition TEXTURING_MODE_REVERSE_SUBTRACTION : Z := 2.
Definition TEXTURING_MODE_MODULATION : Z := 3.
Definition TEXTURING_MODE_DECALING : Z := 4.

Section WithFloat.
Context {F : Type} `{FloatOps F}.

(** The GLSL built-in [mix] on [vec3] with a scalar weight. *)
Variable mix : vec3 F -> vec3 F -> F -> vec3 F.

(** [main()] of [Fragment_Shader_Source]: the value of [gl_FragColor]
    when it returns.  [texture2D] is the look-up in the bound sampler. *)
Definition Fragment_Shader_main
    (texture_enabled : bool) (texturing_mode : Z)
    (texture2D : vec2 F -> vec4 F)
    (fragment_color : vec4 F) (fragment_texture_coordinates : vec2 F) : vec4 F :=
  let gl_FragColor := fragment_color in
  if texture_enabled then
    if texturing_mode =? TEXTURING_MODE_ADDITION then
      vec4_add gl_FragColor (texture2D fragment_texture_coordinates)
    else if texturing_mode =? TEXTURING_MODE_MODULATION then
      vec4_mul gl_FragColor (texture2D fragment_texture_coordinates)
    else if texturing_mode =? TEXTURING_MODE_DECALING then
      let texel_color := texture2D fragment_texture_coordinates in
      set_rgb gl_FragColor
        (mix (vec3_of_vec4 gl_FragColor) (vec3_of_vec4 texel_color) (w4 texel_color))
    else if texturing_mode =? TEXTURING_MODE_SUBTRACTION then
      vec4_sub gl_FragColor (texture2D fragment_texture_coordinates)
    else if texturing_mode =? TEXTURING_MODE_REVERSE_SUBTRACTION then
      vec4_sub (texture2D fragment_texture_coordinates) gl_FragColor
    else gl_FragColor
  else gl_FragColor.

Definition generate_rectangle_geometry_data (fuel : nat)
    (width height : F)
    (width_segments_count height_segments_count : Z)
    : option (list (Asr.Vertex F) * list Z) :=
  let half_height := (height * f_half)%flt in
  let segment_height := (height / float_of_uint height_segments_count)%flt in
  let half_width := (width * f_half)%flt in
  let segment_width := (width / float_of_uint width_segments_count)%flt in
  match
    for_uint fuel (fun i => i <=? height_segments_count) (fun i vertices =>
      let y := (float_of_uint i * segment_height - half_height)%flt in
      let v := (f_one - float_of_uint i / float_of_uint height_segments_count)%flt in
      for_uint fuel (fun j => j <=? width_segments_count) (fun j vertices =>
        let x := (float_of_uint j * segment_width - half_width)%flt in
        let u := (float_of_uint j / float_of_uint width_segments_count)%flt in
        Some (vertices ++ [Asr.mkVertex F
                x y f_zero
                f_zero f_zero f_one
                f_one f_one f_one f_one
                u v]))
        0 vertices)
      0 []
  with
  | None => None
  | Some vertices =>
      match
        for_uint fuel (fun i => i <? height_segments_count) (fun i indices =>
          for_uint fuel (fun j => j <? width_segments_count) (fun j indices =>
            let index_a :=
              to_uint (to_uint (i * to_uint (width_segments_count + 1)) + j) in
            let index_b := to_uint (index_a + 1) in
            let index_c := to_uint (index_a + to_uint (width_segments_count + 1)) in
            let index_d := to_uint (index_c + 1) in
            Some (indices ++ [index_a; index_b; index_c;
                              index_b; index_d; index_c]))
            0 indices)
          0 []
      with
      | None => None
      | Some indices => Some (vertices, indices)
      end
  end.

Definition generate_rectangle_edges_data (fuel : nat)
    (width height : F)
    (width_segments_count height_segments_count : Z)
    : option (list (Asr.Vertex F) * list Z) :=
  let half_height := (height * f_half)%flt in
  let segment_height := (height / float_of_uint height_segments_count)%flt in
  let half_width := (width * f_half)%flt in
  let segment_width := (width / float_of_uint width_segments_count)%flt in
  match
    for_uint fuel (fun i => i <=? height_segments_count) (fun i vertices =>
      let y := (float_of_uint i * segment_height - half_height)%flt in
      let v := (f_one - float_of_uint i / float_of_uint height_segments_count)%flt in
      for_uint fuel (fun j => j <=? width_segments_count) (fun j vertices =>
        let x := (float_of_uint j * segment_width - half_width)%flt in
        let u := (float_of_uint j / float_of_uint width_segments_count)%flt in
        Some (vertices ++ [Asr.mkVertex F
                x y f_zero
                f_zero f_zero f_one
                f_one f_one f_one f_one
                u v]))
        0 vertices)
      0 []
  with
  | None => None
  | Some vertices =>
      match
        for_uint fuel (fun i => i <? height_segments_count) (fun i indices =>
          for_uint fuel (fun j => j <? width_segments_count) (fun j indices =>
            let index_a :=
              to_uint (to_uint (i * to_uint (width_segments_count + 1)) + j) in
            let index_b := to_uint (index_a + 1) in
            let index_c := to_uint (index_a + to_uint (width_segments_count + 1)) in
            let index_d := to_uint (index_c + 1) in
            Some (indices ++ [index_a; index_b; index_b; index_c; index_c; index_a;
                              index_b; index_d; index_d; index_c; index_c; index_b]))
            0 indices)
          0 []
      with
      | None => None
      | Some indices => Some (vertices, indices)
      end
  end.

(** The matrix type of GLSL and the built-in product of a matrix with a
    vector. *)
Variable mat4 : Type.
Variable mat4_times : mat4 -> vec4 F -> vec4 F.

(** What [main()] of [Vertex_Shader_Source] writes: the two built-in
    outputs and the two varyings.  A varying that is not written has no
    defined value: [None]. *)
Record VertexShaderOutputs := {
  gl_Position : vec4 F;
  gl_PointSize : F;
  fragment_color : vec4 F;
  fragment_texture_coordinates : option (vec2 F)
}.

(** [main()] of [Vertex_Shader_Source], on the attributes of one vertex and
    the uniforms. *)
Definition Vertex_Shader_main
    (position color texture_coordinates : vec4 F)
    (texture_enabled : bool) (texture_transformation_matrix : mat4)
    (point_size : F) (model_view_projection_matrix : mat4)
    : VertexShaderOutputs :=
  let fragment_color := color in
  let fragment_texture_coordinates :=
    if texture_enabled then
      let transformed_texture_coordinates :=
        mat4_times texture_transformation_matrix
          {| x4 := x4 texture_coordinates; y4 := y4 texture_coordinates;
             z4 := f_zero; w4 := f_one |} in
      Some {| s2 := x4 transformed_texture_coordinates;
              t2 := y4 transformed_texture_coordinates |}
    else None in
  {| gl_Position := mat4_times model_view_projection_matrix position;
     gl_PointSize := point_size;
     fragment_color := fragment_color;
     fragment_texture_coordinates := fragment_texture_coordinates |}.

(** The state of the vertex loops is the pair of the two vectors.
    [vertices.size() - 1] is a [size_t]; converted to [unsigned int] it is
    reduced modulo 2^32, and so is its value modulo the range of [size_t]. *)
Definition generate_rectangle_vertices_data (fuel : nat)
    (width height : F)
    (width_segments_count height_segments_count : Z)
    : option (list (Asr.Vertex F) * list Z) :=
  let half_height := (height * f_half)%flt in
  let segment_height := (height / float_of_uint height_segments_count)%flt in
  let half_width := (width * f_half)%flt in
  let segment_width := (width / float_of_uint width_segments_count)%flt in
  for_uint fuel (fun i => i <=? height_segments_count) (fun i state =>
    let y := (float_of_uint i * segment_height - half_height)%flt in
    let v := (f_one - float_of_uint i / float_of_uint height_segments_count)%flt in
    for_uint fuel (fun j => j <=? width_segments_count) (fun j state =>
      let x := (float_of_uint j * segment_width - half_width)%flt in
      let u := (float_of_uint j / float_of_uint width_segments_count)%flt in
      let vertices := fst state ++ [Asr.mkVertex F
                        x y f_zero
                        f_zero f_zero f_one
                        f_one f_one f_one f_one
                        u v] in
      let indices := snd state ++ [to_uint (Z.of_nat (List.length vertices) - 1)] in
      Some (vertices, indices))
      0 state)
    0 ([], []).

End WithFloat.
End RectangleTest.

(* ================================================================== *)
(** * tests/transform1_test.cpp *)

Module Transform1Test.
Import CInt Loop Vec.

Definition TEXTURING_MODE_ADDITION : Z := 0.
Definition TEXTURING_MODE_SUBTRACTION : Z := 1.
Definition TEXTURING_MODE_REVERSE_SUBTRACTION : Z := 2.
Definition TEXTURING_MODE_MODULATION : Z := 3.
Definition TEXTURING_MODE_DECALING : Z := 4.

Section WithFloat.
Context {F : Type} `{FloatOps F}.

(** The GLSL built-in [mix] on [vec3] with a scalar weight. *)
Variable mix : vec3 F -> vec3 F -> F -> vec3 F.

(** [asr::pi] and [asr::two_pi] (asr.h is not part of the sources). *)
Variables pi two_pi : F.

(** [main()] of [Fragment_Shader_Source]. *)
Definition Fragment_Shader_main
    (texture_enabled : bool) (texturing_mode : Z)
    (texture2D : vec2 F -> vec4 F)
    (fragment_color : vec4 F) (fragment_texture_coordinates : vec2 F) : vec4 F :=
  let gl_FragColor := fragment_color in
  if texture_enabled then
    if texturing_mode =? TEXTURING_MODE_ADDITION then
      vec4_add gl_FragColor (texture2D fragment_texture_coordinates)
    else if texturing_mode =? TEXTURING_MODE_MODULATION then
      vec4_mul gl_FragColor (texture2D fragment_texture_coordinates)
    else if texturing_mode =? TEXTURING_MODE_DECALING then
      let texel_color := texture2D fragment_texture_coordinates in
      set_rgb gl_FragColor
        (mix (vec3_of_vec4 gl_FragColor) (vec3_of_vec4 texel_color) (w4 texel_color))
    else if texturing_mode =? TEXTURING_MODE_SUBTRACTION then
      vec4_sub gl_FragColor (texture2D fragment_texture_coordinates)
    else if texturing_mode =? TEXTURING_MODE_REVERSE_SUBTRACTION then
      vec4_sub (texture2D fragment_texture_coordinates) gl_FragColor
    else gl_FragColor
  else gl_FragColor.

Definition generate_sphere_geometry_data (fuel : nat)
    (radius : F)
    (width_segments_count height_segments_count : Z)
    : option (list (Asr.Vertex F) * list Z) :=
  match
    for_uint fuel (fun ring => ring <=? height_segments_count) (fun ring vertices =>
      let v := (float_of_uint ring / float_of_uint height_segments_count)%flt in
      let phi := (v * pi)%flt in
      for_uint fuel (fun segment => segment <=? width_segments_count)
        (fun segment vertices =>
          let u := (float_of_uint segment / float_of_uint width_segments_count)%flt in
          let theta := (u * two_pi)%flt in
          let cos_phi := cosf phi in
          let sin_phi := sinf phi in
          let cos_theta := cosf theta in
          let sin_theta := sinf theta in
          let y := cos_phi in
          let x := (sin_phi * cos_theta)%flt in
          let z := (sin_phi * sin_theta)%flt in
          Some (vertices ++ [Asr.mkVertex F
                  (x * radius)%flt (y * radius)%flt (z * radius)%flt
                  x y z
                  f_one f_one f_one f_one
                  (f_one - u)%flt v]))
        0 vertices)
      0 []
  with
  | None => None
  | Some vertices =>
      match
        for_uint fuel (fun ring => ring <? height_segments_count) (fun ring indices =>
          for_uint fuel (fun segment => segment <? width_segments_count)
            (fun segment indices =>
              let index_a :=
                to_uint (to_uint (ring * to_uint (width_segments_count + 1)) + segment) in
              let index_b := to_uint (index_a + 1) in
              let index_c := to_uint (index_a + to_uint (width_segments_count + 1)) in
              let index_d := to_uint (index_c + 1) in
              let indices :=
                if negb (ring =? 0)
                then indices ++ [index_a; index_b; index_c]
                else indices in
              let indices :=
                if negb (ring =? to_uint (height_segments_count - 1))
                then indices ++ [index_b; index_d; index_c]
                else indices in
              Some indices)
            0 indices)
          0 []
      with
      | None => None
      | Some indices => Some (vertices, indices)
      end
  end.

(** The matrix type of GLSL and the built-in product of a matrix with a
    vector. *)
Variable mat4 : Type.
Variable mat4_times : mat4 -> vec4 F -> vec4 F.

(** What [main()] of [Vertex_Shader_Source] writes: the built-in output and
    the two varyings.  A varying that is not written has no defined value:
    [None]. *)
Record VertexShaderOutputs := {
  gl_Position : vec4 F;
  fragment_color : vec4 F;
  fragment_texture_coordinates : option (vec2 F)
}.

(** [main()] of [Vertex_Shader_Source], on the attributes of one vertex and
    the uniforms. *)
Definition Vertex_Shader_main
    (position color texture_coordinates : vec4 F)
    (texture_enabled : bool) (texture_transformation_matrix : mat4)
    (model_view_projection_matrix : mat4)
    : VertexShaderOutputs :=
  let fragment_color := color in
  let fragment_texture_coordinates :=
    if texture_enabled then
      let transformed_texture_coordinates :=
        mat4_times texture_transformation_matrix
          {| x4 := x4 texture_coordinates; y4 := y4 texture_coordinates;
             z4 := f_zero; w4 := f_one |} in
      Some {| s2 := x4 transformed_texture_coordinates;
              t2 := y4 transformed_texture_coordinates |}
    else None in
  {| gl_Position := mat4_times model_view_projection_matrix position;
     fragment_color := fragment_color;
     fragment_texture_coordinates := fragment_texture_coordinates |}.

End WithFloat.

(** The number of indices the sphere generator has pushed when it enters
    ring [ring]: three per segment and ring for the upper triangles, which
    the first ring lacks, and three for the lower ones, which the last ring
    lacks. *)
Definition sphere_indices_before (m n ring : Z) : Z :=
  (if ring =? 0 then 0 else 3 * m * (ring - 1))
  + (if ring =? n then 3 * m * (n - 1) else 3 * m * ring).

End Transform1Test.

(* ================================================================== *)
(** * include/objects/mesh.h *)

Module Mesh.
Import Vec.

(** [std::shared_ptr<T>] and [std::weak_ptr<T>]: which control block the
    pointer refers to, if any.  A [shared_ptr] owns a share of it, a
    [weak_ptr] does not. *)
Inductive shared_ptr (T : Type) : Type :=
| shared_to (block : option nat).

Inductive weak_ptr (T : Type) : Type :=
| weak_to (block : option nat).

Arguments shared_to {T} block.
Arguments weak_to {T} block.

(** [std::move(p)] as an initialiser: the new pointer refers to what [p]
    referred to. *)
Definition move {A : Type} (p : A) : A := p.

(** A parameter with a default argument: [None] is the omitted argument. *)
Definition or_default {A : Type} (argument : option A) (default : A) : A :=
  match argument with Some a => a | None => default end.

Section WithFloat.
Context {F : Type} `{FloatOps F}.

(** [Geometry] and [Material] (geometries/geometry.h and
    materials/material.h are not part of the sources). *)
Variables Geometry Material : Type.

(** Modelled from the spec: the base class [Object] (objects/object.h is
    not part of the sources): a named entity with position, rotation,
    scale and a non-owning reference to an optional parent, all set by
    its constructor from the arguments in this order. *)
#[warnings="-register-all"] Inductive Object : Type :=
| new_Object (name : string) (position rotation scale : vec3 F)
             (parent : weak_ptr Object).

Definition get_name (o : Object) : string :=
  match o with new_Object n _ _ _ _ => n end.
Definition get_position (o : Object) : vec3 F :=
  match o with new_Object _ p _ _ _ => p end.
Definition get_rotation (o : Object) : vec3 F :=
  match o with new_Object _ _ r _ _ => r end.
Definition get_scale (o : Object) : vec3 F :=
  match o with new_Object _ _ _ s _ => s end.
Definition get_parent (o : Object) : weak_ptr Object :=
  match o with new_Object _ _ _ _ p => p end.

(** [class Mesh : public Object] *)
Record Mesh := {
  base : Object;
  _geometry : shared_ptr Geometry;
  _material : shared_ptr Material
}.

(** The constructor. *)
Definition new_Mesh
    (geometry : shared_ptr Geometry) (material : shared_ptr Material)
    (position rotation scale : option (vec3 F))
    (parent : option (weak_ptr Object)) : Mesh :=
  let position := or_default position (vec3_of_vec4 (vec4_of_scalar f_zero)) in
  let rotation := or_default rotation (vec3_of_vec4 (vec4_of_scalar f_zero)) in
  let scale := or_default scale (vec3_of_vec4 (vec4_of_scalar f_one)) in
  let parent := or_default parent (weak_to None) in
  {| base := new_Object "untitled mesh" position rotation scale (move parent);
     _geometry := move geometry;
     _material := move material |}.

Definition get_geometry (m : Mesh) : shared_ptr Geometry := _geometry m.

Definition get_material (m : Mesh) : shared_ptr Material := _material m.

End WithFloat.
End Mesh.

(* ================================================================== *)
(** * Relations between states of a shader *)

Module ES2ShaderSpec.
Import GL ES2Shader.

(** What an operation leaves as it is, and what it only adds to. *)
Definition extends (s s' : State) : Prop :=
  _vertex_shader_source (this s') = _vertex_shader_source (this s) /\
  _fragment_shader_source (this s') = _fragment_shader_source (this s) /\
  map fst (_attributes (this s')) = map fst (_attributes (this s)) /\
  map fst (_uniforms (this s')) = map fst (_uniforms (this s)) /\
  (exists new, gl_calls s' = gl_calls s ++ new) /\
  (exists text, cerr s' = (cerr s ++ text)%string).

End ES2ShaderSpec.

(* ================================================================== *)
(** * What the generators are expected to produce *)

Module Grid.
Import CInt.

(** The cells [(i, j)] of a grid of [rows] rows and [columns] columns, row
    by row: the order in which two nested counting loops visit them. *)
Definition cells (rows columns : Z) : list (Z * Z) :=
  flat_map (fun i => map (fun j => (Z.of_nat i, Z.of_nat j))
                         (seq 0 (Z.to_nat columns)))
           (seq 0 (Z.to_nat rows)).

(** The two triangles of the grid cell [(i, j)] of a grid with [m] columns
    of cells, as the rectangle generator pushes them, in exact arithmetic. *)
Definition rectangle_triangles (m : Z) (cell : Z * Z) : list Z :=
  let index_a := fst cell * (m + 1) + snd cell in
  let index_b := index_a + 1 in
  let index_c := index_a + (m + 1) in
  let index_d := index_c + 1 in
  [index_a; index_b; index_c; index_b; index_d; index_c].

(** The triangles of the cell [(ring, segment)] of the sphere of [n] rings:
    the first ring has no upper triangle, the last no lower one. *)
Definition sphere_triangles (m n : Z) (cell : Z * Z) : list Z :=
  let index_a := fst cell * (m + 1) + snd cell in
  let index_b := index_a + 1 in
  let index_c := index_a + (m + 1) in
  let index_d := index_c + 1 in
  (if fst cell =? 0 then [] else [index_a; index_b; index_c])
  ++ (if fst cell =? n - 1 then [] else [index_b; index_d; index_c]).

(** The same lists in [unsigned int] arithmetic, as the generators compute
    them. *)
Definition rectangle_triangles_uint (m : Z) (cell : Z * Z) : list Z :=
  let index_a := to_uint (to_uint (fst cell * to_uint (m + 1)) + snd cell) in
  let index_b := to_uint (index_a + 1) in
  let index_c := to_uint (index_a + to_uint (m + 1)) in
  let index_d := to_uint (index_c + 1) in
  [index_a; index_b; index_c; index_b; index_d; index_c].

Definition rectangle_lines_uint (m : Z) (cell : Z * Z) : list Z :=
  let index_a := to_uint (to_uint (fst cell * to_uint (m + 1)) + snd cell) in
  let index_b := to_uint (index_a + 1) in
  let index_c := to_uint (index_a + to_uint (m + 1)) in
  let index_d := to_uint (index_c + 1) in
  [index_a; index_b; index_b; index_c; index_c; index_a;
   index_b; index_d; index_d; index_c; index_c; index_b].

Definition sphere_triangles_uint (m n : Z) (cell : Z * Z) : list Z :=
  let index_a := to_uint (to_uint (fst cell * to_uint (m + 1)) + snd cell) in
  let index_b := to_uint (index_a + 1) in
  let index_c := to_uint (index_a + to_uint (m + 1)) in
  let index_d := to_uint (index_c + 1) in
  (if negb (fst cell =? 0) then [index_a; index_b; index_c] else [])
  ++ (if negb (fst cell =? to_uint (n - 1)) then [index_b; index_d; index_c] else []).

(** The sides of the triangles of a triangle list, as a line list. *)
Fixpoint outline (triangles : list Z) : list Z :=
  match triangles with
  | p :: q :: r :: rest => [p; q; q; r; r; p] ++ outline rest
  | _ => []
  end.

Section WithFloat.
Context {F : Type} `{FloatOps F}.

(** The vertex the rectangle generators push in row [i] and column [j]. *)
Definition rectangle_vertex (width height : F) (m n : Z) (cell : Z * Z)
    : Asr.Vertex F :=
  let i := fst cell in
  let j := snd cell in
  Asr.mkVertex F
    (float_of_uint j * (width / float_of_uint m) - width * f_half)%flt
    (float_of_uint i * (height / float_of_uint n) - height * f_half)%flt
    f_zero
    f_zero f_zero f_one
    f_one f_one f_one f_one
    (float_of_uint j / float_of_uint m)%flt
    (f_one - float_of_uint i / float_of_uint n)%flt.

(** The vertex the sphere generator pushes for ring [i] and segment [j]. *)
Definition sphere_vertex (pi two_pi radius : F) (m n : Z) (cell : Z * Z)
    : Asr.Vertex F :=
  let phi := (float_of_uint (fst cell) / float_of_uint n * pi)%flt in
  let theta := (float_of_uint (snd cell) / float_of_uint m * two_pi)%flt in
  Asr.mkVertex F
    (sinf phi * cosf theta * radius)%flt
    (cosf phi * radius)%flt
    (sinf phi * sinf theta * radius)%flt
    (sinf phi * cosf theta)%flt
    (cosf phi)
    (sinf phi * sinf theta)%flt
    f_one f_one f_one f_one
    (f_one - float_of_uint (snd cell) / float_of_uint m)%flt
    (float_of_uint (fst cell) / float_of_uint n)%flt.

End WithFloat.
End Grid.

(* ================================================================== *)
(** * Properties of the machine integer conversions *)

Module CIntFacts.
Import CInt.

Lemma to_uint_range (z : Z) : 0 <= to_uint z < 4294967296.
Proof. unfold to_uint. apply Z.mod_pos_bound. lia. Qed.

Lemma to_uint_small (z : Z) : 0 <= z < 4294967296 -> to_uint z = z.
Proof. intros Hz. unfold to_uint. apply Z.mod_small. exact Hz. Qed.

Lemma to_uint_le (z : Z) : 0 <= z -> to_uint z <= z.
Proof. intros Hz. unfold to_uint. apply Z.mod_le; lia. Qed.

Lemma to_uint_to_int (z : Z) : to_uint (to_int z) = to_uint z.
Proof.
  unfold to_uint, to_int.
  rewrite Zminus_mod_idemp_l.
  f_equal. lia.
Qed.

Lemma to_uint_idem (z : Z) : to_uint (to_uint z) = to_uint z.
Proof. unfold to_uint. apply Z.mod_mod. lia. Qed.

Lemma to_int_range (z : Z) : -2147483648 <= to_int z < 2147483648.
Proof.
  unfold to_int.
  pose proof (Z.mod_pos_bound (z + 2147483648) 4294967296 ltac:(lia)). lia.
Qed.

Lemma to_int_small (z : Z) : -2147483648 <= z < 2147483648 -> to_int z = z.
Proof. intros Hz. unfold to_int. rewrite Z.mod_small; lia. Qed.

End CIntFacts.

(* ================================================================== *)
(** * Properties of [ES2Shader] *)

Module ES2ShaderFacts.
Import GL CInt CIntFacts ES2Shader.

#[local] Arguments to_int : simpl never.
#[local] Arguments to_uint : simpl never.

Lemma append_empty_r (s : string) : (s ++ EmptyString)%string = s.
Proof. induction s as [|c s IH]; simpl; [reflexivity | now rewrite IH]. Qed.

Lemma bind_run {A B : Type} (c : M A) (k : A -> M B) (s : State) :
  bind c k s = k (fst (c s)) (snd (c s)).
Proof. unfold bind. now destruct (c s). Qed.

(** Unfolds the monad and the GL entry points. *)
Ltac run_monad :=
  unfold bind, ret, get, when, set_program, set_dead, set_attribute, set_uniform,
    update, glCreateShader, glShaderSource, glCompileShader, glGetShaderiv,
    glGetShaderInfoLog, glCreateProgram, glAttachShader, glLinkProgram,
    glGetProgramiv, glGetProgramInfoLog, glDetachShader, glDeleteShader,
    glGetAttribLocation, glGetUniformLocation, glDeleteProgram, glUseProgram,
    call, write_cerr; cbn.

(** Brings a transcript into the form [old ++ [c1; c2; ...]]. *)
Ltac flatten_calls := repeat rewrite <- app_assoc; cbn [app].

(** ** [cleanup], [use] *)

Lemma cleanup_run (s : State) :
  cleanup s =
  (tt, {| this := with_dead false (with_program (-1) (this s));
          gl_calls := gl_calls s ++ cleanup_calls (this s);
          cerr := cerr s |}).
Proof.
  unfold cleanup, cleanup_calls. run_monad.
  destruct (_program (this s) =? -1); cbn.
  - rewrite app_nil_r. reflexivity.
  - reflexivity.
Qed.

Lemma use_run (s : State) :
  use s =
  (tt, {| this := this s;
          gl_calls := gl_calls s ++
            (if _program (this s) =? -1 then []
             else [UseProgram (to_uint (_program (this s)))]);
          cerr := cerr s |}).
Proof.
  unfold use. run_monad.
  destruct (_program (this s) =? -1); cbn.
  - rewrite app_nil_r. destruct s; reflexivity.
  - reflexivity.
Qed.

Lemma cleanup_twice (s : State) : snd (cleanup (snd (cleanup s))) = snd (cleanup s).
Proof. rewrite !cleanup_run. cbn. now rewrite app_nil_r. Qed.

(** [compile] sees its object only through [cleanup]. *)
Lemma compile_after_cleanup (r : Replies) (s : State) :
  compile r (snd (cleanup s)) = compile r s.
Proof.
  unfold compile. rewrite !bind_run. cbv beta.
  rewrite cleanup_twice. reflexivity.
Qed.

(** ** [_compile_shader] *)

Lemma _compile_shader_failed (r : StageReplies) (type : ShaderType) (s : State) :
  stage_failed r ->
  _compile_shader r type s =
  (-1, {| this := with_program (-1) (this s);
          gl_calls := gl_calls s ++ stage_calls r type (source_of type (this s))
                                 ++ stage_log_calls r;
          cerr := (cerr s ++ compile_report r)%string |}).
Proof.
  unfold stage_failed. intros Hfail.
  unfold _compile_shader, stage_calls, stage_log_calls, compile_report, source_of.
  destruct type; run_monad; rewrite Hfail; cbn;
    destruct (0 <? to_int (shader_log_length r)); cbn; flatten_calls;
    rewrite ?append_empty_r; reflexivity.
Qed.

Lemma _compile_shader_passed (r : StageReplies) (type : ShaderType) (s : State) :
  to_int (compile_status r) <> GL_FALSE ->
  _compile_shader r type s =
  (to_int (to_uint (shader_name r)),
   {| this := this s;
      gl_calls := gl_calls s ++ stage_calls r type (source_of type (this s));
      cerr := cerr s |}).
Proof.
  intros Hok. apply Z.eqb_neq in Hok.
  unfold _compile_shader, stage_calls, source_of.
  destruct type; run_monad; rewrite Hok; flatten_calls; reflexivity.
Qed.

(** ** [_link_shader] *)

Lemma with_attributes_same (o : Object) : with_attributes (_attributes o) o = o.
Proof. destruct o; reflexivity. Qed.

Lemma with_uniforms_same (o : Object) : with_uniforms (_uniforms o) o = o.
Proof. destruct o; reflexivity. Qed.

Lemma resolve_attributes_run (r : LinkReplies) (program : Z) (names : LocationMap) :
  forall s : State,
  for_each names (fun attribute =>
    location <- glGetAttribLocation program (fst attribute)
                  (attrib_location r (fst attribute)) ;;
    set_attribute (fst attribute) location) s =
  (tt, {| this := with_attributes
                    (resolve (attrib_location r) names (_attributes (this s))) (this s);
          gl_calls := gl_calls s ++
            map (fun attribute =>
                   GetAttribLocation program (fst attribute)
                     (to_int (attrib_location r (fst attribute)))) names;
          cerr := cerr s |}).
Proof.
  induction names as [|entry names IH]; intros s.
  - cbn. rewrite app_nil_r, with_attributes_same. destruct s; reflexivity.
  - cbn [for_each]. unfold bind at 1.
    match goal with
    | |- (let (_, _) := ?c s in _) = _ => destruct (c s) as [u s1] eqn:Hbody
    end.
    revert Hbody. run_monad. intros Hbody. injection Hbody as _ <-.
    rewrite IH. cbn. flatten_calls. reflexivity.
Qed.

Lemma resolve_uniforms_run (r : LinkReplies) (program : Z) (names : LocationMap) :
  forall s : State,
  for_each names (fun uniform =>
    location <- glGetUniformLocation program (fst uniform)
                  (uniform_location r (fst uniform)) ;;
    set_uniform (fst uniform) location) s =
  (tt, {| this := with_uniforms
                    (resolve (uniform_location r) names (_uniforms (this s))) (this s);
          gl_calls := gl_calls s ++
            map (fun uniform =>
                   GetUniformLocation program (fst uniform)
                     (to_int (uniform_location r (fst uniform)))) names;
          cerr := cerr s |}).
Proof.
  induction names as [|entry names IH]; intros s.
  - cbn. rewrite app_nil_r, with_uniforms_same. destruct s; reflexivity.
  - cbn [for_each]. unfold bind at 1.
    match goal with
    | |- (let (_, _) := ?c s in _) = _ => destruct (c s) as [u s1] eqn:Hbody
    end.
    revert Hbody. run_monad. intros Hbody. injection Hbody as _ <-.
    rewrite IH. cbn. flatten_calls. reflexivity.
Qed.

Lemma _link_shader_failed (r : LinkReplies) (vs fs : Z) (s : State) :
  link_failed r ->
  _link_shader r vs fs s =
  (-1, {| this := with_program (-1) (this s);
          gl_calls := gl_calls s ++ link_calls r vs fs ++ link_log_calls r;
          cerr := (cerr s ++ link_report r)%string |}).
Proof.
  unfold link_failed. intros Hfail.
  unfold _link_shader, link_calls, link_log_calls, link_report.
  run_monad. rewrite Hfail. cbn.
  destruct (0 <? to_int (program_log_length r)); cbn; flatten_calls.
  - reflexivity.
  - rewrite append_empty_r. reflexivity.
Qed.

Lemma _link_shader_passed (r : LinkReplies) (vs fs : Z) (s : State) :
  link_ok r ->
  _link_shader r vs fs s =
  (to_int (to_uint (program_name r)),
   {| this := resolved r (this s);
      gl_calls := gl_calls s ++ link_calls r vs fs
                  ++ resolve_calls r vs fs (_attributes (this s)) (_uniforms (this s));
      cerr := cerr s |}).
Proof.
  unfold link_ok. intros Hok. apply Z.eqb_neq in Hok.
  unfold _link_shader, link_calls, resolve_calls, resolved.
  cbn. rewrite Hok. cbn.
  unfold bind at 1. rewrite resolve_attributes_run. cbn.
  unfold bind at 1. rewrite resolve_uniforms_run. cbn.
  flatten_calls. reflexivity.
Qed.

(** ** [compile], case by case *)

Lemma classify (r : Replies) : Outcome r.
Proof.
  destruct (Z.eq_dec (to_int (compile_status (vertex_stage r))) GL_FALSE) as [Hv|Hv].
  { now apply VertexFailed. }
  destruct (Z.eq_dec (to_int (to_uint (shader_name (vertex_stage r)))) (-1)) as [Hvn|Hvn].
  { now apply VertexUnusable. }
  destruct (Z.eq_dec (to_int (compile_status (fragment_stage r))) GL_FALSE) as [Hf|Hf].
  { apply FragmentFailed; [split|]; assumption. }
  destruct (Z.eq_dec (to_int (to_uint (shader_name (fragment_stage r)))) (-1)) as [Hfn|Hfn].
  { apply FragmentUnusable; [split| |]; assumption. }
  destruct (Z.eq_dec (to_int (link_status (link_stage r))) GL_FALSE) as [Hl|Hl].
  { apply LinkFailed; [split|split|]; assumption. }
  destruct (Z.eq_dec (to_int (to_uint (program_name (link_stage r)))) (-1)) as [Hp|Hp].
  { apply ProgramUnusable; [split|split| |]; assumption. }
  apply Succeeded. repeat split; assumption.
Qed.

(** One step of a [bind]: run the first computation by the lemma [L]. *)
Ltac step L :=
  unfold bind at 1; rewrite L by assumption; cbv beta iota;
  cbn [this gl_calls cerr source_of].

Ltac name_ok H := apply Z.eqb_neq in H; rewrite H.

Lemma compile_vertex_failed (r : Replies) (s : State) :
  stage_failed (vertex_stage r) ->
  compile r s =
  (tt, {| this := with_dead true (with_program (-1) (this s));
          gl_calls := gl_calls s ++ cleanup_calls (this s)
            ++ stage_calls (vertex_stage r) GL_VERTEX_SHADER
                 (_vertex_shader_source (this s))
            ++ stage_log_calls (vertex_stage r);
          cerr := (cerr s ++ compile_report (vertex_stage r))%string |}).
Proof.
  intros Hv. unfold compile.
  step cleanup_run. step _compile_shader_failed.
  cbn. flatten_calls. reflexivity.
Qed.

Lemma compile_vertex_unusable (r : Replies) (s : State) :
  to_int (compile_status (vertex_stage r)) <> GL_FALSE ->
  to_int (to_uint (shader_name (vertex_stage r))) = -1 ->
  compile r s =
  (tt, {| this := with_dead true (with_program (-1) (this s));
          gl_calls := gl_calls s ++ cleanup_calls (this s)
            ++ stage_calls (vertex_stage r) GL_VERTEX_SHADER
                 (_vertex_shader_source (this s));
          cerr := cerr s |}).
Proof.
  intros Hv Hvn. unfold compile.
  step cleanup_run. step _compile_shader_passed.
  rewrite Hvn. cbn. flatten_calls. reflexivity.
Qed.

Lemma compile_fragment_failed (r : Replies) (s : State) :
  stage_ok (vertex_stage r) ->
  stage_failed (fragment_stage r) ->
  compile r s =
  (tt, {| this := with_dead true (with_program (-1) (this s));
          gl_calls := gl_calls s ++ cleanup_calls (this s)
            ++ stage_calls (vertex_stage r) GL_VERTEX_SHADER
                 (_vertex_shader_source (this s))
            ++ stage_calls (fragment_stage r) GL_FRAGMENT_SHADER
                 (_fragment_shader_source (this s))
            ++ stage_log_calls (fragment_stage r);
          cerr := (cerr s ++ compile_report (fragment_stage r))%string |}).
Proof.
  intros [Hv Hvn] Hf. unfold compile.
  step cleanup_run. step _compile_shader_passed. name_ok Hvn.
  step _compile_shader_failed.
  cbn. flatten_calls. reflexivity.
Qed.

Lemma compile_fragment_unusable (r : Replies) (s : State) :
  stage_ok (vertex_stage r) ->
  to_int (compile_status (fragment_stage r)) <> GL_FALSE ->
  to_int (to_uint (shader_name (fragment_stage r))) = -1 ->
  compile r s =
  (tt, {| this := with_dead true (with_program (-1) (this s));
          gl_calls := gl_calls s ++ cleanup_calls (this s)
            ++ stage_calls (vertex_stage r) GL_VERTEX_SHADER
                 (_vertex_shader_source (this s))
            ++ stage_calls (fragment_stage r) GL_FRAGMENT_SHADER
                 (_fragment_shader_source (this s));
          cerr := cerr s |}).
Proof.
  intros [Hv Hvn] Hf Hfn. unfold compile.
  step cleanup_run. step _compile_shader_passed. name_ok Hvn.
  step _compile_shader_passed. rewrite Hfn.
  cbn. flatten_calls. reflexivity.
Qed.

Lemma compile_link_failed (r : Replies) (s : State) :
  stage_ok (vertex_stage r) ->
  stage_ok (fragment_stage r) ->
  link_failed (link_stage r) ->
  compile r s =
  (tt, {| this := with_dead true (with_program (-1) (this s));
          gl_calls := gl_calls s ++ cleanup_calls (this s)
            ++ stage_calls (vertex_stage r) GL_VERTEX_SHADER
                 (_vertex_shader_source (this s))
            ++ stage_calls (fragment_stage r) GL_FRAGMENT_SHADER
                 (_fragment_shader_source (this s))
            ++ link_calls (link_stage r)
                 (to_uint (shader_name (vertex_stage r)))
                 (to_uint (shader_name (fragment_stage r)))
            ++ link_log_calls (link_stage r);
          cerr := (cerr s ++ link_report (link_stage r))%string |}).
Proof.
  intros [Hv Hvn] [Hf Hfn] Hl. unfold compile.
  step cleanup_run. step _compile_shader_passed. name_ok Hvn.
  step _compile_shader_passed. name_ok Hfn.
  rewrite !to_uint_to_int, !to_uint_idem.
  step _link_shader_failed.
  cbn. flatten_calls. reflexivity.
Qed.

Lemma compile_program_unusable (r : Replies) (s : State) :
  stage_ok (vertex_stage r) ->
  stage_ok (fragment_stage r) ->
  link_ok (link_stage r) ->
  to_int (to_uint (program_name (link_stage r))) = -1 ->
  compile r s =
  (tt, {| this := with_dead true (with_program (-1) (resolved (link_stage r) (this s)));
          gl_calls := gl_calls s ++ cleanup_calls (this s)
            ++ stage_calls (vertex_stage r) GL_VERTEX_SHADER
                 (_vertex_shader_source (this s))
            ++ stage_calls (fragment_stage r) GL_FRAGMENT_SHADER
                 (_fragment_shader_source (this s))
            ++ link_calls (link_stage r)
                 (to_uint (shader_name (vertex_stage r)))
                 (to_uint (shader_name (fragment_stage r)))
            ++ resolve_calls (link_stage r)
                 (to_uint (shader_name (vertex_stage r)))
                 (to_uint (shader_name (fragment_stage r)))
                 (_attributes (this s)) (_uniforms (this s));
          cerr := cerr s |}).
Proof.
  intros [Hv Hvn] [Hf Hfn] Hl Hp. unfold compile.
  step cleanup_run. step _compile_shader_passed. name_ok Hvn.
  step _compile_shader_passed. name_ok Hfn.
  rewrite !to_uint_to_int, !to_uint_idem.
  step _link_shader_passed. rewrite Hp.
  cbn. flatten_calls. reflexivity.
Qed.

Lemma compile_succeeded (r : Replies) (s : State) :
  succeeds r ->
  compile r s =
  (tt, {| this := with_dead false
                    (with_program (to_int (to_uint (program_name (link_stage r))))
                       (resolved (link_stage r) (this s)));
          gl_calls := gl_calls s ++ cleanup_calls (this s)
            ++ stage_calls (vertex_stage r) GL_VERTEX_SHADER
                 (_vertex_shader_source (this s))
            ++ stage_calls (fragment_stage r) GL_FRAGMENT_SHADER
                 (_fragment_shader_source (this s))
            ++ link_calls (link_stage r)
                 (to_uint (shader_name (vertex_stage r)))
                 (to_uint (shader_name (fragment_stage r)))
            ++ resolve_calls (link_stage r)
                 (to_uint (shader_name (vertex_stage r)))
                 (to_uint (shader_name (fragment_stage r)))
                 (_attributes (this s)) (_uniforms (this s));
          cerr := cerr s |}).
Proof.
  intros ([Hv Hvn] & [Hf Hfn] & Hl & Hp). unfold compile.
  step cleanup_run. step _compile_shader_passed. name_ok Hvn.
  step _compile_shader_passed. name_ok Hfn.
  rewrite !to_uint_to_int, !to_uint_idem.
  step _link_shader_passed. name_ok Hp.
  cbn. flatten_calls. reflexivity.
Qed.

(** ** The location tables *)

Lemma lookup_assign_same (name : string) (v : Z) (m : LocationMap) :
  lookup name (assign name v m) = Some v.
Proof.
  induction m as [|[k w] m IH]; cbn.
  - now rewrite String.eqb_refl.
  - destruct (String.eqb k name) eqn:Hk; cbn; rewrite Hk; [reflexivity | exact IH].
Qed.

Lemma lookup_assign_other (name key : string) (v : Z) (m : LocationMap) :
  key <> name -> lookup name (assign key v m) = lookup name m.
Proof.
  intros Hne. induction m as [|[k w] m IH]; cbn.
  - apply String.eqb_neq in Hne. now rewrite Hne.
  - destruct (String.eqb k key) eqn:Hk; cbn.
    + apply String.eqb_eq in Hk. subst k.
      apply String.eqb_neq in Hne. now rewrite Hne.
    + destruct (String.eqb k name); [reflexivity | exact IH].
Qed.

Lemma lookup_resolve (location : string -> Z) (name : string) (names : LocationMap) :
  forall m : LocationMap,
  lookup name (resolve location names m) =
  if existsb (fun entry => String.eqb (fst entry) name) names
  then Some (to_int (location name))
  else lookup name m.
Proof.
  unfold resolve.
  induction names as [|[k w] names IH]; intros m; cbn.
  - reflexivity.
  - rewrite IH. destruct (String.eqb k name) eqn:Hk; cbn.
    + apply String.eqb_eq in Hk. subst k.
      rewrite lookup_assign_same.
      now destruct (existsb _ names).
    + apply String.eqb_neq in Hk.
      now rewrite lookup_assign_other.
Qed.

Lemma lookup_declared (name : string) (m : LocationMap) :
  existsb (fun entry => String.eqb (fst entry) name) m =
  match lookup name m with Some _ => true | None => false end.
Proof.
  induction m as [|[k w] m IH]; cbn.
  - reflexivity.
  - destruct (String.eqb k name); [reflexivity | exact IH].
Qed.

Lemma lookup_resolve_self (location : string -> Z) (name : string) (m : LocationMap) :
  lookup name (resolve location m m) =
  option_map (fun _ => to_int (location name)) (lookup name m).
Proof.
  rewrite lookup_resolve, lookup_declared.
  now destruct (lookup name m).
Qed.

(** ** Transcripts *)

Lemma existsb_map_false {A} (p : Call -> bool) (f : A -> Call) (xs : list A) :
  (forall x, p (f x) = false) -> existsb p (map f xs) = false.
Proof.
  intros Hp. induction xs as [|x xs IH]; cbn; [reflexivity|].
  now rewrite Hp, IH.
Qed.

Lemma cleanup_calls_no_link (o : Object) :
  existsb is_link_call (cleanup_calls o) = false.
Proof. unfold cleanup_calls. now destruct (_program o =? -1). Qed.

Lemma cleanup_calls_no_query (o : Object) :
  existsb is_location_query (cleanup_calls o) = false.
Proof. unfold cleanup_calls. now destruct (_program o =? -1). Qed.

Lemma stage_log_calls_plain (p : Call -> bool) (r : StageReplies) :
  (forall sh pn out, p (GetShaderiv sh pn out) = false) ->
  (forall sh n out, p (GetShaderInfoLog sh n out) = false) ->
  existsb p (stage_log_calls r) = false.
Proof.
  intros H1 H2. unfold stage_log_calls. cbn. rewrite H1.
  destruct (0 <? to_int (shader_log_length r)); cbn; [now rewrite H2 | reflexivity].
Qed.

Lemma link_log_calls_plain (p : Call -> bool) (r : LinkReplies) :
  (forall pr pn out, p (GetProgramiv pr pn out) = false) ->
  (forall pr n out, p (GetProgramInfoLog pr n out) = false) ->
  existsb p (link_log_calls r) = false.
Proof.
  intros H1 H2. unfold link_log_calls. cbn. rewrite H1.
  destruct (0 <? to_int (program_log_length r)); cbn; [now rewrite H2 | reflexivity].
Qed.

Lemma resolve_calls_no_program (r : LinkReplies) (vs fs : Z) (attrs unis : LocationMap) :
  existsb is_delete_program (resolve_calls r vs fs attrs unis) = false.
Proof.
  unfold resolve_calls. cbn. rewrite existsb_app.
  now rewrite !existsb_map_false.
Qed.

#[local] Arguments cleanup_calls : simpl never.
#[local] Arguments stage_log_calls : simpl never.
#[local] Arguments link_log_calls : simpl never.
#[local] Arguments resolve_calls : simpl never.

(** Discharges [existsb p t = false] for a transcript built from the named
    pieces. *)
Ltac no_such_call :=
  repeat (rewrite ?existsb_app; cbn);
  rewrite ?cleanup_calls_no_link, ?cleanup_calls_no_query,
    ?resolve_calls_no_program;
  rewrite ?stage_log_calls_plain by reflexivity;
  rewrite ?link_log_calls_plain by reflexivity;
  reflexivity.

(** ** The lifecycle *)

Lemma compile_dead_has_no_program (r : Replies) (s : State) :
  dead_has_no_program (snd (compile r s)).
Proof.
  unfold dead_has_no_program.
  destruct (classify r).
  - rewrite compile_vertex_failed by assumption. reflexivity.
  - rewrite compile_vertex_unusable by assumption. reflexivity.
  - rewrite compile_fragment_failed by assumption. reflexivity.
  - rewrite compile_fragment_unusable by assumption. reflexivity.
  - rewrite compile_link_failed by assumption. reflexivity.
  - rewrite compile_program_unusable by assumption. reflexivity.
  - rewrite compile_succeeded by assumption. cbn. discriminate.
Qed.

Lemma step_dead_has_no_program (op : Op) (s : State) :
  dead_has_no_program s -> dead_has_no_program (step op s).
Proof.
  intros Hs. destruct op as [r| |]; cbn [step].
  - apply compile_dead_has_no_program.
  - rewrite cleanup_run. unfold dead_has_no_program. reflexivity.
  - rewrite use_run. exact Hs.
Qed.

Lemma run_dead_has_no_program (ops : list Op) :
  forall s : State, dead_has_no_program s -> dead_has_no_program (run ops s).
Proof.
  unfold run.
  induction ops as [|op ops IH]; intros s Hs; cbn [fold_left].
  - exact Hs.
  - apply IH. now apply step_dead_has_no_program.
Qed.

Lemma lifecycle_compiled (s : State) :
  dead_has_no_program s ->
  (lifecycle (this s) = Compiled <-> _program (this s) <> -1).
Proof.
  unfold dead_has_no_program, lifecycle. intros Hs.
  destruct (_dead (this s)).
  - rewrite Hs by reflexivity. split; [discriminate | congruence].
  - destruct (Z.eqb_spec (_program (this s)) (-1)) as [Hp|Hp].
    + split; [discriminate | congruence].
    + split; [intros _; exact Hp | reflexivity].
Qed.

(** ** The claims about the shader program *)

(** C5.  In any state, [cleanup] deletes the GPU program if the object holds
    one (and makes no GL call otherwise), sets the handle to -1 and clears
    the dead flag, which is the Uninitialized state; a second [cleanup]
    right after changes nothing at all: same object, no further GL call. *)
Theorem cleanup_releases_and_is_idempotent (s : State) :
  let s1 := snd (cleanup s) in
  _program (this s1) = -1 /\
  _dead (this s1) = false /\
  lifecycle (this s1) = Uninitialized /\
  gl_calls s1 = gl_calls s ++
    (if _program (this s) =? -1 then []
     else [DeleteProgram (to_uint (_program (this s)))]) /\
  cerr s1 = cerr s /\
  snd (cleanup s1) = s1.
Proof.
  cbn zeta. rewrite cleanup_twice. rewrite cleanup_run. cbn.
  repeat split.
Qed.

(** C1.  In every state an [ES2Shader] can be in (any run of [compile],
    [cleanup] and [use] on a freshly constructed object), the program is
    Compiled exactly when its handle is not -1; [use] then makes the single
    call [glUseProgram] on the stored handle, and in the other two states,
    Uninitialized and Dead, it returns with the state unchanged: no GL call,
    nothing reported. *)
Theorem use_binds_exactly_when_compiled
    (vertex_shader_source fragment_shader_source : string)
    (attributes uniforms : list string) (ops : list Op) :
  let s := run ops (construct vertex_shader_source fragment_shader_source
                      attributes uniforms) in
  (lifecycle (this s) = Compiled <-> _program (this s) <> -1) /\
  (lifecycle (this s) = Compiled ->
     use s = (tt, {| this := this s;
                     gl_calls := gl_calls s ++
                                 [UseProgram (to_uint (_program (this s)))];
                     cerr := cerr s |})) /\
  (lifecycle (this s) <> Compiled -> use s = (tt, s)).
Proof.
  cbn zeta.
  set (s := run ops _).
  assert (Hinv : dead_has_no_program s).
  { apply run_dead_has_no_program. unfold dead_has_no_program. cbn. discriminate. }
  pose proof (lifecycle_compiled s Hinv) as Hc.
  split; [exact Hc|]. split.
  - intros Hl. apply Hc in Hl. rewrite use_run.
    apply Z.eqb_neq in Hl. rewrite Hl. reflexivity.
  - intros Hl. rewrite use_run.
    destruct (Z.eqb_spec (_program (this s)) (-1)) as [Hp|Hp].
    + rewrite app_nil_r. destruct s; reflexivity.
    + exfalso. apply Hl. now apply Hc.
Qed.

Lemma use_binds_exactly_when_compiled_witness :
  let compiled := run [OpCompile (replies_accepted 1 2 3)] sample_shader in
  let dead := run [OpCompile replies_link_rejected] sample_shader in
  lifecycle (this compiled) = Compiled /\
  gl_calls (snd (use compiled)) = gl_calls compiled ++ [UseProgram 3] /\
  lifecycle (this dead) = Dead /\
  use dead = (tt, dead).
Proof.
  cbn zeta.
  destruct (use_binds_exactly_when_compiled
              sample_vertex_source sample_fragment_source
              sample_attributes sample_uniforms
              [OpCompile (replies_accepted 1 2 3)]) as (_ & Hcompiled & _).
  destruct (use_binds_exactly_when_compiled
              sample_vertex_source sample_fragment_source
              sample_attributes sample_uniforms
              [OpCompile replies_link_rejected]) as (_ & _ & Hdead).
  split; [reflexivity|]. split.
  - unfold sample_shader. rewrite Hcompiled by reflexivity. reflexivity.
  - split; [reflexivity|]. apply Hdead. vm_compute. discriminate.
Defined.

(** [succeeds] is what its name says: the replies with which [compile]
    ends in the Compiled state. *)
Lemma succeeds_iff_compiled (r : Replies) (s : State) :
  succeeds r <-> lifecycle (this (snd (compile r s))) = Compiled.
Proof.
  split.
  - intros Hr. rewrite compile_succeeded by assumption.
    destruct Hr as (_ & _ & _ & Hp). apply Z.eqb_neq in Hp.
    unfold lifecycle. cbn. now rewrite Hp.
  - destruct (classify r) as [Hv|Hv Hvn|Hv Hf|Hv Hf Hfn|Hv Hf Hl|Hv Hf Hl Hp|Hr];
      [ rewrite compile_vertex_failed by assumption
      | rewrite compile_vertex_unusable by assumption
      | rewrite compile_fragment_failed by assumption
      | rewrite compile_fragment_unusable by assumption
      | rewrite compile_link_failed by assumption
      | rewrite compile_program_unusable by assumption
      | intros _; exact Hr ];
      cbn; discriminate.
Qed.

(** What [compile] leaves behind when both stages compile and the link is
    rejected: after the calls of [cleanup], no [glDeleteShader] and no
    [glDeleteProgram] follows the [glCreateShader] and [glCreateProgram]
    calls. *)
Lemma link_failure_transcript (r : Replies) (s : State) :
  stage_ok (vertex_stage r) ->
  stage_ok (fragment_stage r) ->
  link_failed (link_stage r) ->
  exists new,
    gl_calls (snd (compile r s)) = gl_calls s ++ cleanup_calls (this s) ++ new /\
    existsb is_delete_shader new = false /\
    existsb is_delete_program new = false.
Proof.
  intros Hv Hf Hl. rewrite compile_link_failed by assumption. cbn.
  eexists. split; [reflexivity|].
  split; no_such_call.
Qed.

(** C2.  Both stages compile (shader objects 1 and 2) and the link of
    program 3 is rejected: [compile] leaves the program Dead with handle -1,
    but its transcript has no [glDeleteShader] at all; the two shader objects
    and the program object it created are still alive. *)
Theorem link_failure_keeps_shader_objects :
  let s' := snd (compile replies_link_rejected sample_shader) in
  lifecycle (this s') = Dead /\
  _program (this s') = -1 /\
  existsb is_delete_shader (gl_calls s') = false /\
  live_shaders [] (gl_calls s') = [2; 1] /\
  live_programs [] (gl_calls s') = [3].
Proof. vm_compute. repeat split. Qed.

(** C3.  If the vertex stage fails to compile, [compile] writes the
    compilation log to [std::cerr] (the log the driver returns, when the
    driver reports a log of positive length), leaves the program Dead with
    handle -1, and after the calls of [cleanup] makes only the calls of the
    vertex stage: there is no [glCreateShader(GL_FRAGMENT_SHADER)] and no
    call of the link step.  If the vertex stage compiles and the fragment
    stage fails, the program is Dead with handle -1 and no call of the link
    step is made; the fragment log is written the same way. *)
Theorem compile_stops_at_failed_stage (r : Replies) (s : State) :
  (stage_failed (vertex_stage r) ->
     let s' := snd (compile r s) in
     cerr s' = (cerr s ++ compile_report (vertex_stage r))%string /\
     lifecycle (this s') = Dead /\
     _program (this s') = -1 /\
     gl_calls s' = gl_calls s ++ cleanup_calls (this s)
       ++ stage_calls (vertex_stage r) GL_VERTEX_SHADER (_vertex_shader_source (this s))
       ++ stage_log_calls (vertex_stage r) /\
     exists new,
       gl_calls s' = gl_calls s ++ new /\
       existsb (is_create_shader GL_FRAGMENT_SHADER) new = false /\
       existsb is_link_call new = false) /\
  (to_int (compile_status (vertex_stage r)) <> GL_FALSE ->
   stage_failed (fragment_stage r) ->
     let s' := snd (compile r s) in
     lifecycle (this s') = Dead /\
     _program (this s') = -1 /\
     (to_int (to_uint (shader_name (vertex_stage r))) <> -1 ->
        cerr s' = (cerr s ++ compile_report (fragment_stage r))%string) /\
     exists new,
       gl_calls s' = gl_calls s ++ new /\
       existsb is_link_call new = false).
Proof.
  split.
  - intros Hv. rewrite compile_vertex_failed by assumption. cbn.
    repeat split.
    eexists. split; [reflexivity|].
    unfold cleanup_calls.
    split; destruct (_program (this s) =? -1); cbn; no_such_call.
  - intros Hv Hf.
    destruct (Z.eq_dec (to_int (to_uint (shader_name (vertex_stage r)))) (-1))
      as [Hvn|Hvn].
    + rewrite compile_vertex_unusable by assumption. cbn.
      repeat split; [contradiction|].
      eexists. split; [reflexivity|]. no_such_call.
    + rewrite compile_fragment_failed by (try split; assumption). cbn.
      repeat split.
      eexists. split; [reflexivity|]. no_such_call.
Qed.

Lemma compile_stops_at_failed_stage_witness :
  (stage_failed (vertex_stage replies_vertex_rejected) /\
   lifecycle (this (snd (compile replies_vertex_rejected sample_shader))) = Dead) /\
  (to_int (compile_status (vertex_stage replies_fragment_rejected)) <> GL_FALSE /\
   stage_failed (fragment_stage replies_fragment_rejected) /\
   lifecycle (this (snd (compile replies_fragment_rejected sample_shader))) = Dead).
Proof.
  split.
  - split; [reflexivity|].
    apply (proj1 (compile_stops_at_failed_stage replies_vertex_rejected sample_shader)).
    reflexivity.
  - split; [|split].
    + vm_compute. discriminate.
    + reflexivity.
    + apply (proj2 (compile_stops_at_failed_stage replies_fragment_rejected sample_shader)).
      * vm_compute. discriminate.
      * reflexivity.
Defined.


(** ** Program objects alive after a transcript *)

Lemma live_programs_app (t1 t2 : list Call) :
  forall live, live_programs live (t1 ++ t2) = live_programs (live_programs live t1) t2.
Proof.
  induction t1 as [|c t1 IH]; intros live; cbn; [reflexivity|].
  destruct c; apply IH.
Qed.

Lemma live_programs_plain (t : list Call) :
  existsb touches_program t = false ->
  forall live, live_programs live t = live.
Proof.
  induction t as [|c t IH]; cbn; intros Ht live; [reflexivity|].
  apply orb_false_iff in Ht. destruct Ht as [Hc Ht].
  destruct c; cbn in Hc; try discriminate; now apply IH.
Qed.

Lemma resolve_calls_plain (r : LinkReplies) (vs fs : Z) (attrs unis : LocationMap) :
  existsb touches_program (resolve_calls r vs fs attrs unis) = false.
Proof.
  unfold resolve_calls. cbn. rewrite existsb_app.
  now rewrite !existsb_map_false.
Qed.

Lemma live_programs_cleanup_calls (o : Object) (live : list Z) :
  live_programs live (cleanup_calls o) =
  if _program o =? -1 then live else remove Z.eq_dec (to_uint (_program o)) live.
Proof. unfold cleanup_calls. now destruct (_program o =? -1). Qed.

(** The calls of a [compile] that succeeds, after those of [cleanup], leave
    one more program alive: the one just linked. *)
Lemma live_programs_after_link (r : Replies) (o : Object) (live : list Z) :
  live_programs live
    (stage_calls (vertex_stage r) GL_VERTEX_SHADER (_vertex_shader_source o)
     ++ stage_calls (fragment_stage r) GL_FRAGMENT_SHADER (_fragment_shader_source o)
     ++ link_calls (link_stage r)
          (to_uint (shader_name (vertex_stage r)))
          (to_uint (shader_name (fragment_stage r)))
     ++ resolve_calls (link_stage r)
          (to_uint (shader_name (vertex_stage r)))
          (to_uint (shader_name (fragment_stage r)))
          (_attributes o) (_uniforms o)) =
  to_uint (program_name (link_stage r)) :: live.
Proof.
  rewrite !live_programs_app. cbn.
  apply live_programs_plain, resolve_calls_plain.
Qed.

Lemma remove_only (p : Z) : remove Z.eq_dec p [p] = [].
Proof. cbn. destruct (Z.eq_dec p p); [reflexivity | contradiction]. Qed.

(** Every run of [compile] starts with the calls of [cleanup], goes on with
    the vertex stage, and deletes no program after that. *)
Lemma compile_transcript_prefix (r : Replies) (s : State) :
  exists rest,
    gl_calls (snd (compile r s)) =
      gl_calls s ++ cleanup_calls (this s)
      ++ stage_calls (vertex_stage r) GL_VERTEX_SHADER (_vertex_shader_source (this s))
      ++ rest /\
    existsb is_delete_program rest = false.
Proof.
  destruct (classify r).
  - rewrite compile_vertex_failed by assumption. cbn [snd gl_calls].
    eexists. split; [reflexivity | no_such_call].
  - rewrite compile_vertex_unusable by assumption. cbn [snd gl_calls].
    exists []. split; [now rewrite app_nil_r | reflexivity].
  - rewrite compile_fragment_failed by assumption. cbn [snd gl_calls].
    eexists. split; [reflexivity | no_such_call].
  - rewrite compile_fragment_unusable by assumption. cbn [snd gl_calls].
    eexists. split; [reflexivity | no_such_call].
  - rewrite compile_link_failed by assumption. cbn [snd gl_calls].
    eexists. split; [reflexivity | no_such_call].
  - rewrite compile_program_unusable by assumption. cbn [snd gl_calls].
    eexists. split; [reflexivity | no_such_call].
  - rewrite compile_succeeded by assumption. cbn [snd gl_calls].
    eexists. split; [reflexivity | no_such_call].
Qed.

(** C4.  [compile] begins with what [cleanup] does: it does to any state
    what it does to that state cleaned up (handle -1, dead flag false); its
    first GL call deletes the program the object holds, if it holds one, and
    no other program is deleted during the call.  A successful compile ends
    Compiled with the dead flag false and the new program as handle,
    whatever the state before was, Dead included.  After two successful
    compiles in a row the object holds the second program, and of the
    programs created during the two calls only that one is still alive. *)
Theorem compile_releases_and_recovers (r r2 : Replies) (s : State) :
  let s1 := snd (compile r s) in
  let s2 := snd (compile r2 s1) in
  compile r s = compile r (snd (cleanup s)) /\
  (exists rest,
     gl_calls s1 =
       gl_calls s
       ++ (if _program (this s) =? -1 then []
           else [DeleteProgram (to_uint (_program (this s)))])
       ++ stage_calls (vertex_stage r) GL_VERTEX_SHADER (_vertex_shader_source (this s))
       ++ rest /\
     existsb is_delete_program rest = false) /\
  (succeeds r ->
     lifecycle (this s1) = Compiled /\
     _dead (this s1) = false /\
     _program (this s1) = to_int (to_uint (program_name (link_stage r))) /\
     _program (this s1) <> -1) /\
  (succeeds r -> succeeds r2 ->
     _program (this s2) = to_int (to_uint (program_name (link_stage r2))) /\
     exists new,
       gl_calls s2 = gl_calls s ++ new /\
       In (DeleteProgram (to_uint (program_name (link_stage r)))) new /\
       live_programs [] new = [to_uint (program_name (link_stage r2))]).
Proof.
  cbn zeta. split; [|split; [|split]].
  - symmetry. apply compile_after_cleanup.
  - apply compile_transcript_prefix.
  - intros Hr. rewrite compile_succeeded by assumption.
    destruct Hr as (_ & _ & _ & Hp).
    unfold lifecycle. cbn.
    pose proof Hp as Hp'. apply Z.eqb_neq in Hp'. rewrite Hp'.
    repeat split. exact Hp.
  - intros Hr Hr2.
    rewrite (compile_succeeded r s) by assumption. cbn [snd].
    rewrite compile_succeeded by assumption. cbn [snd this gl_calls].
    split; [reflexivity|].
    destruct Hr as (_ & _ & _ & Hp).
    set (o1 := with_dead false _).
    assert (Hc1 : cleanup_calls o1 =
                  [DeleteProgram (to_uint (program_name (link_stage r)))]).
    { unfold cleanup_calls, o1. cbn [_program with_dead with_program].
      apply Z.eqb_neq in Hp. rewrite Hp.
      now rewrite to_uint_to_int, to_uint_idem. }
    rewrite Hc1.
    set (B1 := stage_calls (vertex_stage r) _ _ ++ _).
    set (B2 := stage_calls (vertex_stage r2) _ _ ++ _).
    exists (cleanup_calls (this s) ++ B1
            ++ [DeleteProgram (to_uint (program_name (link_stage r)))] ++ B2).
    split; [now rewrite <- !app_assoc|]. split.
    + rewrite !in_app_iff. right. right. left. now left.
    + rewrite live_programs_app, live_programs_cleanup_calls.
      replace (if _program (this s) =? -1 then []
               else remove Z.eq_dec (to_uint (_program (this s))) [])
        with (@nil Z) by now destruct (_program (this s) =? -1).
      rewrite live_programs_app. unfold B1.
      rewrite live_programs_after_link.
      rewrite live_programs_app. cbn [live_programs]. rewrite remove_only.
      unfold B2. apply (live_programs_after_link r2 o1).
Qed.


Lemma compile_releases_and_recovers_witness :
  succeeds (replies_accepted 4 5 6) /\
  succeeds (replies_accepted 7 8 9) /\
  lifecycle (this dead_shader) = Dead /\
  lifecycle (this (snd (compile (replies_accepted 4 5 6) dead_shader))) = Compiled /\
  _program (this (snd (compile (replies_accepted 7 8 9)
                         (snd (compile (replies_accepted 4 5 6) dead_shader))))) = 9.
Proof.
  assert (H1 : succeeds (replies_accepted 4 5 6))
    by (repeat split; vm_compute; discriminate).
  assert (H2 : succeeds (replies_accepted 7 8 9))
    by (repeat split; vm_compute; discriminate).
  pose proof (compile_releases_and_recovers
                (replies_accepted 4 5 6) (replies_accepted 7 8 9) dead_shader)
    as (_ & _ & Ha & Hb).
  split; [exact H1|]. split; [exact H2|]. split; [reflexivity|]. split.
  - apply Ha. exact H1.
  - destruct (Hb H1 H2) as [Hp _]. rewrite Hp. reflexivity.
Defined.

(** C6.  When [compile] succeeds, the program is Compiled and each table
    holds, for every name declared in it, the location the driver returned
    for that name (read as [GLint]), a returned -1 included; no name is added
    or lost.  The location queries are the calls that follow the link step,
    and nothing follows them.  When a stage does not compile or the link
    fails, both tables are what they were and no location is queried. *)
Theorem locations_resolved_after_link_only (r : Replies) (s : State) :
  let s' := snd (compile r s) in
  (succeeds r ->
     lifecycle (this s') = Compiled /\
     (forall name,
        lookup name (_attributes (this s')) =
        option_map (fun _ => to_int (attrib_location (link_stage r) name))
                   (lookup name (_attributes (this s)))) /\
     (forall name,
        lookup name (_uniforms (this s')) =
        option_map (fun _ => to_int (uniform_location (link_stage r) name))
                   (lookup name (_uniforms (this s)))) /\
     (forall name,
        lookup name (_attributes (this s)) <> None ->
        attrib_location (link_stage r) name = -1 ->
        lookup name (_attributes (this s')) = Some (-1)) /\
     (forall name,
        lookup name (_uniforms (this s)) <> None ->
        uniform_location (link_stage r) name = -1 ->
        lookup name (_uniforms (this s')) = Some (-1)) /\
     exists before,
       gl_calls s' =
         before
         ++ link_calls (link_stage r)
              (to_uint (shader_name (vertex_stage r)))
              (to_uint (shader_name (fragment_stage r)))
         ++ resolve_calls (link_stage r)
              (to_uint (shader_name (vertex_stage r)))
              (to_uint (shader_name (fragment_stage r)))
              (_attributes (this s)) (_uniforms (this s))) /\
  (~ (stage_ok (vertex_stage r) /\ stage_ok (fragment_stage r) /\
      link_ok (link_stage r)) ->
     _attributes (this s') = _attributes (this s) /\
     _uniforms (this s') = _uniforms (this s) /\
     exists new,
       gl_calls s' = gl_calls s ++ new /\
       existsb is_location_query new = false).
Proof.
  cbn zeta. split.
  - intros Hr. rewrite compile_succeeded by assumption.
    destruct Hr as (_ & _ & _ & Hp).
    cbn [snd this gl_calls].
    assert (Ha : forall name,
               lookup name (_attributes (with_dead false
                  (with_program (to_int (to_uint (program_name (link_stage r))))
                     (resolved (link_stage r) (this s))))) =
               option_map (fun _ => to_int (attrib_location (link_stage r) name))
                          (lookup name (_attributes (this s)))).
    { intros name. cbn. apply lookup_resolve_self. }
    assert (Hu : forall name,
               lookup name (_uniforms (with_dead false
                  (with_program (to_int (to_uint (program_name (link_stage r))))
                     (resolved (link_stage r) (this s))))) =
               option_map (fun _ => to_int (uniform_location (link_stage r) name))
                          (lookup name (_uniforms (this s)))).
    { intros name. cbn. apply lookup_resolve_self. }
    split; [|split; [exact Ha|split; [exact Hu|split; [|split]]]].
    + unfold lifecycle. cbn. apply Z.eqb_neq in Hp. now rewrite Hp.
    + intros name Hdecl Hloc. rewrite Ha, Hloc.
      destruct (lookup name (_attributes (this s))); [reflexivity | contradiction].
    + intros name Hdecl Hloc. rewrite Hu, Hloc.
      destruct (lookup name (_uniforms (this s))); [reflexivity | contradiction].
    + eexists. rewrite !app_assoc. reflexivity.
  - intros Hnot.
    destruct (classify r) as [Hv|Hv Hvn|Hv Hf|Hv Hf Hfn|Hv Hf Hl|Hv Hf Hl Hp|Hr].
    + rewrite compile_vertex_failed by assumption. cbn [snd this gl_calls].
      repeat split. eexists. split; [reflexivity | no_such_call].
    + rewrite compile_vertex_unusable by assumption. cbn [snd this gl_calls].
      repeat split. eexists. split; [reflexivity | no_such_call].
    + rewrite compile_fragment_failed by assumption. cbn [snd this gl_calls].
      repeat split. eexists. split; [reflexivity | no_such_call].
    + rewrite compile_fragment_unusable by assumption. cbn [snd this gl_calls].
      repeat split. eexists. split; [reflexivity | no_such_call].
    + rewrite compile_link_failed by assumption. cbn [snd this gl_calls].
      repeat split. eexists. split; [reflexivity | no_such_call].
    + exfalso. apply Hnot. repeat split; assumption || apply Hv || apply Hf.
    + exfalso. apply Hnot. destruct Hr as (Hv & Hf & Hl & _). repeat split;
        assumption || apply Hv || apply Hf.
Qed.

Lemma locations_resolved_after_link_only_witness :
  (succeeds (replies_accepted 1 2 3) /\
   lookup "position" (_attributes (this (snd (compile (replies_accepted 1 2 3)
                                                 sample_shader)))) = Some 0 /\
   lookup "unused_attribute"
     (_attributes (this (snd (compile (replies_accepted 1 2 3) sample_shader))))
     = Some (-1)) /\
  (~ (stage_ok (vertex_stage replies_link_rejected) /\
      stage_ok (fragment_stage replies_link_rejected) /\
      link_ok (link_stage replies_link_rejected)) /\
   _attributes (this (snd (compile replies_link_rejected sample_shader))) =
   _attributes (this sample_shader)).
Proof.
  assert (H1 : succeeds (replies_accepted 1 2 3))
    by (repeat split; vm_compute; discriminate).
  assert (H2 : ~ (stage_ok (vertex_stage replies_link_rejected) /\
                  stage_ok (fragment_stage replies_link_rejected) /\
                  link_ok (link_stage replies_link_rejected))).
  { intros (_ & _ & Hl). apply Hl. reflexivity. }
  split.
  - split; [exact H1|].
    destruct (proj1 (locations_resolved_after_link_only (replies_accepted 1 2 3)
                       sample_shader) H1) as (_ & Ha & _ & Hm & _).
    split.
    + rewrite Ha. reflexivity.
    + apply Hm; [discriminate | reflexivity].
  - split; [exact H2|].
    apply (proj2 (locations_resolved_after_link_only replies_link_rejected
                    sample_shader) H2).
Defined.


End ES2ShaderFacts.

(* ================================================================== *)
(** * Properties of the counting loops *)

Module LoopFacts.
Import CInt CIntFacts Loop.

(** A loop whose condition is [i < hi], with [hi] an [unsigned int], started
    below [hi] with enough fuel, is left with the counter at [hi]; an
    invariant kept by the body holds at the end. *)
Lemma for_uint_below {S : Type} (hi : Z) (cond : Z -> bool)
    (body : Z -> S -> option S) (Inv : Z -> S -> Prop) :
  0 <= hi <= UINT_MAX ->
  (forall i, 0 <= i <= hi -> cond i = (i <? hi)) ->
  (forall i s, 0 <= i < hi -> Inv i s ->
     exists s', body i s = Some s' /\ Inv (i + 1) s') ->
  forall (fuel : nat) (i : Z) (s : S),
    0 <= i <= hi -> (Z.to_nat (hi - i) < fuel)%nat -> Inv i s ->
    exists s', for_uint fuel cond body i s = Some s' /\ Inv hi s'.
Proof.
  unfold UINT_MAX. intros Hhi Hcond Hbody.
  induction fuel as [|fuel IH]; intros i s Hi Hfuel Hinv; [lia|].
  cbn [for_uint]. rewrite Hcond by lia.
  destruct (Z.ltb_spec i hi) as [Hlt|Hge].
  - destruct (Hbody i s) as (s' & Hs' & Hinv'); [lia | exact Hinv |].
    rewrite Hs'. rewrite to_uint_small by lia.
    apply IH; [lia | lia | exact Hinv'].
  - exists s. split; [reflexivity|].
    replace hi with i by lia. exact Hinv.
Qed.

(** A loop whose condition holds for every [unsigned int] is never left. *)
Lemma for_uint_forever {S : Type} (cond : Z -> bool) (body : Z -> S -> option S) :
  (forall i, 0 <= i < 4294967296 -> cond i = true) ->
  forall (fuel : nat) (i : Z) (s : S),
    0 <= i < 4294967296 -> for_uint fuel cond body i s = None.
Proof.
  intros Hcond. induction fuel as [|fuel IH]; intros i s Hi; cbn [for_uint].
  - reflexivity.
  - rewrite Hcond by exact Hi.
    destruct (body i s) as [s'|]; [|reflexivity].
    apply IH, to_uint_range.
Qed.

(** A loop whose first iteration does not finish does not finish. *)
Lemma for_uint_first_fails {S : Type} (fuel : nat) (cond : Z -> bool)
    (body : Z -> S -> option S) (i : Z) (s : S) :
  cond i = true -> body i s = None -> for_uint fuel cond body i s = None.
Proof.
  intros Hcond Hbody. destruct fuel as [|fuel]; cbn [for_uint]; [reflexivity|].
  now rewrite Hcond, Hbody.
Qed.

(** Two loops with the same condition whose bodies fail together are left
    together, for every amount of fuel. *)
Lemma for_uint_together {S T : Type} (cond : Z -> bool)
    (body1 : Z -> S -> option S) (body2 : Z -> T -> option T) :
  (forall i s t, together (body1 i s) (body2 i t)) ->
  forall (fuel : nat) (i : Z) (s : S) (t : T),
    together (for_uint fuel cond body1 i s) (for_uint fuel cond body2 i t).
Proof.
  intros Hbody. induction fuel as [|fuel IH]; intros i s t; cbn [for_uint].
  - exact I.
  - destruct (cond i); [|exact I].
    specialize (Hbody i s t).
    destruct (body1 i s) as [s'|], (body2 i t) as [t'|]; cbn in Hbody;
      try contradiction; [apply IH | exact I].
Qed.

(** Two nested loops over a grid of [hi_i] rows and [hi_j] columns whose body
    appends the list [cell i j]: the result has [total hi_i] elements when
    every cell of row [i] has [c i] elements and [total] adds up the rows,
    and all its elements satisfy what the elements of the cells satisfy. *)
Lemma nested_loops {A : Type} (condI condJ : Z -> bool)
    (body : Z -> Z -> list A -> option (list A))
    (cell : Z -> Z -> list A) (c total : Z -> Z) (P : A -> Prop)
    (hi_i hi_j : Z) (fuel : nat) :
  0 <= hi_i <= UINT_MAX ->
  0 <= hi_j <= UINT_MAX ->
  (forall i, 0 <= i <= hi_i -> condI i = (i <? hi_i)) ->
  (forall j, 0 <= j <= hi_j -> condJ j = (j <? hi_j)) ->
  (forall i j acc, 0 <= i < hi_i -> 0 <= j < hi_j ->
     body i j acc = Some (acc ++ cell i j)) ->
  (forall i j, 0 <= i < hi_i -> 0 <= j < hi_j ->
     Z.of_nat (List.length (cell i j)) = c i /\ Forall P (cell i j)) ->
  total 0 = 0 ->
  (forall i, 0 <= i < hi_i -> total (i + 1) = total i + hi_j * c i) ->
  (Z.to_nat hi_i < fuel)%nat ->
  (Z.to_nat hi_j < fuel)%nat ->
  exists out,
    for_uint fuel condI
      (fun i acc => for_uint fuel condJ (fun j acc => body i j acc) 0 acc) 0 []
    = Some out /\
    Z.of_nat (List.length out) = total hi_i /\
    Forall P out.
Proof.
  intros Hhi_i Hhi_j HcondI HcondJ Hbody Hcell Htotal0 Htotal Hfuel_i Hfuel_j.
  apply (for_uint_below hi_i condI _
           (fun i acc => Z.of_nat (List.length acc) = total i /\ Forall P acc));
    try assumption; try lia.
  - intros i acc Hi [Hlen Hall].
    destruct (for_uint_below hi_j condJ (fun j acc => body i j acc)
                (fun j acc' => Z.of_nat (List.length acc') = total i + j * c i
                               /\ Forall P acc')
                Hhi_j HcondJ) with (fuel := fuel) (i := 0) (s := acc)
      as (acc' & Hrun & Hlen' & Hall').
    + intros j acc' Hj [Hlen' Hall'].
      exists (acc' ++ cell i j). split; [now apply Hbody|].
      destruct (Hcell i j Hi Hj) as [Hc HP].
      split.
      * rewrite length_app, Nat2Z.inj_add, Hlen', Hc. lia.
      * apply Forall_app. now split.
    + lia.
    + rewrite Z.sub_0_r. exact Hfuel_j.
    + split; [lia | exact Hall].
    + exists acc'. split; [exact Hrun|]. split; [|exact Hall'].
      rewrite Hlen', Htotal by exact Hi. lia.
  - split; [cbn; now rewrite Htotal0 | constructor].
Qed.

End LoopFacts.


(* ================================================================== *)
(** * Properties of the geometry generators *)

Module GeneratorFacts.
Import CInt CIntFacts Loop LoopFacts.

(** The four corner indices of the grid cell in row [i] and column [j] are
    indices of vertices of the grid, whether or not the [unsigned int]
    arithmetic wraps around. *)
Lemma corner_indices_in_range (m n i j : Z) :
  0 <= m < UINT_MAX -> 0 <= n < UINT_MAX -> 0 <= i < n -> 0 <= j < m ->
  let index_a := to_uint (to_uint (i * to_uint (m + 1)) + j) in
  let index_b := to_uint (index_a + 1) in
  let index_c := to_uint (index_a + to_uint (m + 1)) in
  let index_d := to_uint (index_c + 1) in
  (0 <= index_a < (m + 1) * (n + 1)) /\
  (0 <= index_b < (m + 1) * (n + 1)) /\
  (0 <= index_c < (m + 1) * (n + 1)) /\
  (0 <= index_d < (m + 1) * (n + 1)).
Proof.
  unfold UINT_MAX. intros Hm Hn Hi Hj. cbn zeta.
  rewrite (to_uint_small (m + 1)) by lia.
  assert (H0 : 0 <= i * (m + 1)) by nia.
  pose proof (to_uint_range (i * (m + 1))) as R1.
  pose proof (to_uint_le (i * (m + 1)) H0) as L1.
  set (p := to_uint (i * (m + 1))) in *.
  pose proof (to_uint_range (p + j)) as Ra.
  pose proof (to_uint_le (p + j) ltac:(lia)) as La.
  set (index_a := to_uint (p + j)) in *.
  pose proof (to_uint_range (index_a + 1)) as Rb.
  pose proof (to_uint_le (index_a + 1) ltac:(lia)) as Lb.
  pose proof (to_uint_range (index_a + (m + 1))) as Rc.
  pose proof (to_uint_le (index_a + (m + 1)) ltac:(lia)) as Lc.
  set (index_c := to_uint (index_a + (m + 1))) in *.
  pose proof (to_uint_range (index_c + 1)) as Rd.
  pose proof (to_uint_le (index_c + 1) ltac:(lia)) as Ld.
  assert (Hrow : (i + 1) * (m + 1) <= n * (m + 1)) by nia.
  repeat split; nia.
Qed.

(** The side conditions of [nested_loops] that are arithmetic or hold by
    computation. *)
Ltac loop_side := try (unfold UINT_MAX; lia); try (intros; reflexivity).

Section WithFloat.
Context {F : Type} `{FloatOps F}.

Lemma rectangle_geometry_run (width height : F) (m n : Z) (fuel : nat) :
  0 <= m < UINT_MAX -> 0 <= n < UINT_MAX ->
  (Z.to_nat (Z.max m n) + 1 < fuel)%nat ->
  exists vertices indices,
    RectangleTest.generate_rectangle_geometry_data fuel width height m n
      = Some (vertices, indices) /\
    Z.of_nat (List.length vertices) = (m + 1) * (n + 1) /\
    Z.of_nat (List.length indices) = 6 * m * n /\
    valid_indices vertices indices.
Proof.
  intros Hm Hn Hfuel. pose proof Hm as Hm'. pose proof Hn as Hn'.
  unfold UINT_MAX in Hm', Hn'.
  unfold RectangleTest.generate_rectangle_geometry_data, valid_indices.
  cbv zeta.
  match goal with
  | |- context [for_uint fuel (fun a => a <=? n)
                  (fun row acc => for_uint fuel ?cj
                     (fun col acc' => Some (acc' ++ [@?V row col])) 0 acc)
                  0 []] =>
      destruct (nested_loops (fun a => a <=? n) cj
                  (fun row col acc => Some (acc ++ [V row col]))
                  (fun row col => [V row col])
                  (fun _ => 1) (fun row => (m + 1) * row) (fun _ => True)
                  (n + 1) (m + 1) fuel)
        as (vertices & Hv & Hlv & _)
  end; loop_side.
  { intros i j _ _. split; [reflexivity | repeat constructor]. }
  cbv beta in Hv. rewrite Hv.
  match goal with
  | |- context [for_uint fuel (fun a => a <? n)
                  (fun row acc => for_uint fuel ?cj
                     (fun col acc' => Some (acc' ++ @?C row col)) 0 acc)
                  0 []] =>
      destruct (nested_loops (fun a => a <? n) cj
                  (fun row col acc => Some (acc ++ C row col)) C
                  (fun _ => 6) (fun row => 6 * m * row)
                  (fun index => 0 <= index < (m + 1) * (n + 1))
                  n m fuel)
        as (indices & Hi & Hli & Hall)
  end; loop_side.
  { intros i j Hi Hj. split; [reflexivity|].
    destruct (corner_indices_in_range m n i j Hm Hn Hi Hj) as (Ha & Hb & Hc & Hd).
    repeat constructor; lia. }
  cbv beta in Hi. rewrite Hi.
  exists vertices, indices.
  split; [reflexivity|]. split; [lia|]. split; [lia|].
  rewrite Hlv. exact Hall.
Qed.

Lemma rectangle_edges_run (width height : F) (m n : Z) (fuel : nat) :
  0 <= m < UINT_MAX -> 0 <= n < UINT_MAX ->
  (Z.to_nat (Z.max m n) + 1 < fuel)%nat ->
  exists vertices indices,
    RectangleTest.generate_rectangle_edges_data fuel width height m n
      = Some (vertices, indices) /\
    Z.of_nat (List.length vertices) = (m + 1) * (n + 1) /\
    Z.of_nat (List.length indices) = 12 * m * n /\
    valid_indices vertices indices.
Proof.
  intros Hm Hn Hfuel. pose proof Hm as Hm'. pose proof Hn as Hn'.
  unfold UINT_MAX in Hm', Hn'.
  unfold RectangleTest.generate_rectangle_edges_data, valid_indices.
  cbv zeta.
  match goal with
  | |- context [for_uint fuel (fun a => a <=? n)
                  (fun row acc => for_uint fuel ?cj
                     (fun col acc' => Some (acc' ++ [@?V row col])) 0 acc)
                  0 []] =>
      destruct (nested_loops (fun a => a <=? n) cj
                  (fun row col acc => Some (acc ++ [V row col]))
                  (fun row col => [V row col])
                  (fun _ => 1) (fun row => (m + 1) * row) (fun _ => True)
                  (n + 1) (m + 1) fuel)
        as (vertices & Hv & Hlv & _)
  end; loop_side.
  { intros i j _ _. split; [reflexivity | repeat constructor]. }
  cbv beta in Hv. rewrite Hv.
  match goal with
  | |- context [for_uint fuel (fun a => a <? n)
                  (fun row acc => for_uint fuel ?cj
                     (fun col acc' => Some (acc' ++ @?C row col)) 0 acc)
                  0 []] =>
      destruct (nested_loops (fun a => a <? n) cj
                  (fun row col acc => Some (acc ++ C row col)) C
                  (fun _ => 12) (fun row => 12 * m * row)
                  (fun index => 0 <= index < (m + 1) * (n + 1))
                  n m fuel)
        as (indices & Hi & Hli & Hall)
  end; loop_side.
  { intros i j Hi Hj. split; [reflexivity|].
    destruct (corner_indices_in_range m n i j Hm Hn Hi Hj) as (Ha & Hb & Hc & Hd).
    repeat constructor; lia. }
  cbv beta in Hi. rewrite Hi.
  exists vertices, indices.
  split; [reflexivity|]. split; [lia|]. split; [lia|].
  rewrite Hlv. exact Hall.
Qed.

Lemma sphere_geometry_run (pi two_pi radius : F) (m n : Z) (fuel : nat) :
  0 <= m < UINT_MAX -> 0 < n < UINT_MAX ->
  (Z.to_nat (Z.max m n) + 1 < fuel)%nat ->
  exists vertices indices,
    Transform1Test.generate_sphere_geometry_data pi two_pi fuel radius m n
      = Some (vertices, indices) /\
    Z.of_nat (List.length vertices) = (m + 1) * (n + 1) /\
    Z.of_nat (List.length indices) = 6 * m * (n - 1) /\
    valid_indices vertices indices.
Proof.
  intros Hm Hn Hfuel. pose proof Hm as Hm'. pose proof Hn as Hn'.
  unfold UINT_MAX in Hm', Hn'.
  assert (Hn0 : 0 <= n < UINT_MAX) by (unfold UINT_MAX; lia).
  unfold Transform1Test.generate_sphere_geometry_data, valid_indices.
  cbv zeta.
  match goal with
  | |- context [for_uint fuel (fun a => a <=? n)
                  (fun row acc => for_uint fuel ?cj
                     (fun col acc' => Some (acc' ++ [@?V row col])) 0 acc)
                  0 []] =>
      destruct (nested_loops (fun a => a <=? n) cj
                  (fun row col acc => Some (acc ++ [V row col]))
                  (fun row col => [V row col])
                  (fun _ => 1) (fun row => (m + 1) * row) (fun _ => True)
                  (n + 1) (m + 1) fuel)
        as (vertices & Hv & Hlv & _)
  end; loop_side.
  { intros i j _ _. split; [reflexivity | repeat constructor]. }
  cbv beta in Hv. rewrite Hv.
  rewrite (to_uint_small (n - 1)) by lia.
  match goal with
  | |- context [for_uint fuel (fun a => a <? n)
                  (fun row acc => for_uint fuel ?cj (@?B row) 0 acc) 0 []] =>
      destruct (nested_loops (fun a => a <? n) cj B
                  (fun row col =>
                     let index_a := to_uint (to_uint (row * to_uint (m + 1)) + col) in
                     let index_b := to_uint (index_a + 1) in
                     let index_c := to_uint (index_a + to_uint (m + 1)) in
                     let index_d := to_uint (index_c + 1) in
                     (if negb (row =? 0) then [index_a; index_b; index_c] else [])
                     ++ (if negb (row =? n - 1) then [index_b; index_d; index_c] else []))
                  (fun row => (if row =? 0 then 0 else 3) + (if row =? n - 1 then 0 else 3))
                  (Transform1Test.sphere_indices_before m n)
                  (fun index => 0 <= index < (m + 1) * (n + 1))
                  n m fuel)
        as (indices & Hi & Hli & Hall)
  end; loop_side.
  { intros i j acc _ _. cbv zeta.
    destruct (negb (i =? 0)), (negb (i =? n - 1)); cbn [app];
      rewrite <- ?app_assoc, ?app_nil_r; reflexivity. }
  { intros i j Hi Hj. cbv zeta.
    destruct (corner_indices_in_range m n i j Hm Hn0 Hi Hj) as (Ha & Hb & Hc & Hd).
    cbv zeta in Ha, Hb, Hc, Hd.
    destruct (i =? 0), (i =? n - 1); cbn [negb app List.length];
      (split; [reflexivity | repeat constructor; lia]). }
  { unfold Transform1Test.sphere_indices_before.
    destruct (Z.eqb_spec 0 0), (Z.eqb_spec 0 n); lia. }
  { intros i Hi. unfold Transform1Test.sphere_indices_before.
    destruct (Z.eqb_spec i 0), (Z.eqb_spec (i + 1) 0), (Z.eqb_spec i n),
      (Z.eqb_spec (i + 1) n), (Z.eqb_spec i (n - 1)); try lia. }
  cbv beta in Hi. rewrite Hi.
  exists vertices, indices.
  split; [reflexivity|]. split; [lia|]. split.
  - rewrite Hli. unfold Transform1Test.sphere_indices_before.
    rewrite Z.eqb_refl. destruct (Z.eqb_spec n 0); lia.
  - rewrite Hlv. exact Hall.
Qed.


(** C7, as amended.  For positive segment counts [m] and [n] below
    [UINT_MAX], and fuel for [max m n + 2] tests of a loop condition, the
    rectangle generator returns [(m+1)*(n+1)] vertices and [6*m*n] indices,
    the sphere generator returns [(m+1)*(n+1)] vertices and [6*m*(n-1)]
    indices, and in both results every index is below the number of
    vertices. *)
Theorem generators_return_valid_geometry
    (width height radius pi two_pi : F) (m n : Z) (fuel : nat) :
  0 < m < UINT_MAX ->
  0 < n < UINT_MAX ->
  (Z.to_nat (Z.max m n) + 1 < fuel)%nat ->
  (exists vertices indices,
     RectangleTest.generate_rectangle_geometry_data fuel width height m n
       = Some (vertices, indices) /\
     Z.of_nat (List.length vertices) = (m + 1) * (n + 1) /\
     Z.of_nat (List.length indices) = 6 * m * n /\
     valid_indices vertices indices) /\
  (exists vertices indices,
     Transform1Test.generate_sphere_geometry_data pi two_pi fuel radius m n
       = Some (vertices, indices) /\
     Z.of_nat (List.length vertices) = (m + 1) * (n + 1) /\
     Z.of_nat (List.length indices) = 6 * m * (n - 1) /\
     valid_indices vertices indices).
Proof.
  intros Hm Hn Hfuel. split.
  - apply rectangle_geometry_run; unfold UINT_MAX in *; lia.
  - apply sphere_geometry_run; unfold UINT_MAX in *; lia.
Qed.

(** C9.  For the same arguments and the same fuel the two rectangle
    generators return together, and with the same vertex sequence.  For
    segment counts below [UINT_MAX], and fuel for [max m n + 2] tests of a
    loop condition, both return: the same vertices, [6*m*n] triangle indices
    from the one and [12*m*n] line indices from the other. *)
Theorem rectangle_generators_share_vertices
    (width height : F) (m n : Z) (fuel : nat) :
  option_map fst
    (RectangleTest.generate_rectangle_geometry_data fuel width height m n) =
  option_map fst
    (RectangleTest.generate_rectangle_edges_data fuel width height m n) /\
  (0 <= m < UINT_MAX ->
   0 <= n < UINT_MAX ->
   (Z.to_nat (Z.max m n) + 1 < fuel)%nat ->
   exists vertices triangle_indices line_indices,
     RectangleTest.generate_rectangle_geometry_data fuel width height m n
       = Some (vertices, triangle_indices) /\
     RectangleTest.generate_rectangle_edges_data fuel width height m n
       = Some (vertices, line_indices) /\
     Z.of_nat (List.length triangle_indices) = 6 * m * n /\
     Z.of_nat (List.length line_indices) = 12 * m * n).
Proof.
  assert (Hsame :
    option_map fst
      (RectangleTest.generate_rectangle_geometry_data fuel width height m n) =
    option_map fst
      (RectangleTest.generate_rectangle_edges_data fuel width height m n)).
  { unfold RectangleTest.generate_rectangle_geometry_data,
      RectangleTest.generate_rectangle_edges_data.
    cbv zeta.
    match goal with
    | |- option_map fst (match ?V with _ => _ end) = _ =>
        destruct V as [vertices|]; [|reflexivity]
    end.
    match goal with
    | |- option_map fst (match ?L1 with _ => _ end) =
         option_map fst (match ?L2 with _ => _ end) =>
        assert (Ht : together L1 L2);
          [|destruct L1, L2; cbn in Ht; try contradiction; reflexivity]
    end.
    apply for_uint_together. intros i s t.
    apply for_uint_together. intros j s' t'. exact I. }
  split; [exact Hsame|].
  intros Hm Hn Hfuel.
  destruct (rectangle_geometry_run width height m n fuel Hm Hn Hfuel)
    as (vertices & triangle_indices & Hg & _ & Hlg & _).
  destruct (rectangle_edges_run width height m n fuel Hm Hn Hfuel)
    as (vertices' & line_indices & He & _ & Hle & _).
  rewrite Hg, He in Hsame. cbn in Hsame. injection Hsame as <-.
  exists vertices, triangle_indices, line_indices.
  repeat split; assumption.
Qed.


End WithFloat.

(** The unit square: one segment each way gives 4 vertices and 6 indices;
    the sphere of one ring has 4 vertices and no triangle. *)
Lemma generators_return_valid_geometry_witness :
  0 < 1 < UINT_MAX /\
  (Z.to_nat (Z.max 1 1) + 1 < 3)%nat /\
  (exists vertices indices,
     RectangleTest.generate_rectangle_geometry_data 3 TOne TOne 1 1
       = Some (vertices, indices) /\
     Z.of_nat (List.length vertices) = 4 /\
     Z.of_nat (List.length indices) = 6 /\
     valid_indices vertices indices) /\
  (exists vertices indices,
     Transform1Test.generate_sphere_geometry_data (TInput "pi") (TInput "two_pi")
       3 THalf 1 1 = Some (vertices, indices) /\
     Z.of_nat (List.length vertices) = 4 /\
     Z.of_nat (List.length indices) = 0 /\
     valid_indices vertices indices).
Proof.
  assert (H1 : 0 < 1 < UINT_MAX) by (unfold UINT_MAX; lia).
  assert (H3 : (Z.to_nat (Z.max 1 1) + 1 < 3)%nat) by (cbn; lia).
  split; [exact H1|]. split; [exact H3|].
  exact (generators_return_valid_geometry (F := FloatTerm)
           TOne TOne THalf (TInput "pi") (TInput "two_pi") 1 1 3 H1 H1 H3).
Defined.

(** With [width_segments_count = UINT_MAX] the condition [j <=
    width_segments_count] of the inner vertex loop holds for every [unsigned
    int]: the generator never returns, whatever the fuel. *)
Lemma rectangle_generator_never_returns_at_UINT_MAX :
  ~ exists (fuel : nat) result,
      RectangleTest.generate_rectangle_geometry_data (F := FloatTerm)
        fuel TOne TOne 4294967295 1 = Some result.
Proof.
  intros (fuel & result & Hrun).
  unfold RectangleTest.generate_rectangle_geometry_data in Hrun.
  cbv zeta in Hrun.
  rewrite for_uint_first_fails in Hrun.
  - discriminate Hrun.
  - reflexivity.
  - apply for_uint_forever; [|lia].
    intros j Hj. apply Z.leb_le. lia.
Qed.

Lemma rectangle_generators_share_vertices_witness :
  0 <= 2 < UINT_MAX /\
  0 <= 3 < UINT_MAX /\
  (Z.to_nat (Z.max 2 3) + 1 < 5)%nat /\
  exists vertices triangle_indices line_indices,
    RectangleTest.generate_rectangle_geometry_data 5 TOne TOne 2 3
      = Some (vertices, triangle_indices) /\
    RectangleTest.generate_rectangle_edges_data 5 TOne TOne 2 3
      = Some (vertices, line_indices) /\
    Z.of_nat (List.length triangle_indices) = 36 /\
    Z.of_nat (List.length line_indices) = 72.
Proof.
  assert (H2 : 0 <= 2 < UINT_MAX) by (unfold UINT_MAX; lia).
  assert (H3 : 0 <= 3 < UINT_MAX) by (unfold UINT_MAX; lia).
  assert (H5 : (Z.to_nat (Z.max 2 3) + 1 < 5)%nat) by (cbn; lia).
  split; [exact H2|]. split; [exact H3|]. split; [exact H5|].
  exact (proj2 (rectangle_generators_share_vertices (F := FloatTerm)
                  TOne TOne 2 3 5) H2 H3 H5).
Defined.


End GeneratorFacts.

(* ================================================================== *)
(** * Properties of the fragment shader *)

Module FragmentShaderFacts.
Import Vec.

Section WithFloat.
Context {F : Type} `{FloatOps F}.
Variable mix : vec3 F -> vec3 F -> F -> vec3 F.

(** C8.  With [c] the fragment color and [t] the texel that [texture2D]
    returns at the fragment's texture coordinates: with texturing enabled
    the fragment shader outputs [c + t] in the addition mode, [c - t] in the
    subtraction mode, [t - c] in the reverse subtraction mode, [c * t]
    (component by component) in the modulation mode and, in the decaling
    mode, [c] with its rgb replaced by [mix(c.rgb, t.rgb, t.a)]; with
    texturing disabled it outputs [c] in every mode.  This holds for the
    shader of the rectangle test and for its copy in the transformation
    test. *)
Theorem fragment_shader_combines_by_mode
    (texture2D : vec2 F -> vec4 F) (c : vec4 F) (coordinates : vec2 F) :
  let t := texture2D coordinates in
  let decal := set_rgb c (mix (vec3_of_vec4 c) (vec3_of_vec4 t) (w4 t)) in
  (RectangleTest.Fragment_Shader_main mix true
     RectangleTest.TEXTURING_MODE_ADDITION texture2D c coordinates = vec4_add c t /\
   RectangleTest.Fragment_Shader_main mix true
     RectangleTest.TEXTURING_MODE_SUBTRACTION texture2D c coordinates = vec4_sub c t /\
   RectangleTest.Fragment_Shader_main mix true
     RectangleTest.TEXTURING_MODE_REVERSE_SUBTRACTION texture2D c coordinates
     = vec4_sub t c /\
   RectangleTest.Fragment_Shader_main mix true
     RectangleTest.TEXTURING_MODE_MODULATION texture2D c coordinates = vec4_mul c t /\
   RectangleTest.Fragment_Shader_main mix true
     RectangleTest.TEXTURING_MODE_DECALING texture2D c coordinates = decal /\
   (forall mode,
      RectangleTest.Fragment_Shader_main mix false mode texture2D c coordinates = c)) /\
  (Transform1Test.Fragment_Shader_main mix true
     Transform1Test.TEXTURING_MODE_ADDITION texture2D c coordinates = vec4_add c t /\
   Transform1Test.Fragment_Shader_main mix true
     Transform1Test.TEXTURING_MODE_SUBTRACTION texture2D c coordinates = vec4_sub c t /\
   Transform1Test.Fragment_Shader_main mix true
     Transform1Test.TEXTURING_MODE_REVERSE_SUBTRACTION texture2D c coordinates
     = vec4_sub t c /\
   Transform1Test.Fragment_Shader_main mix true
     Transform1Test.TEXTURING_MODE_MODULATION texture2D c coordinates = vec4_mul c t /\
   Transform1Test.Fragment_Shader_main mix true
     Transform1Test.TEXTURING_MODE_DECALING texture2D c coordinates = decal /\
   (forall mode,
      Transform1Test.Fragment_Shader_main mix false mode texture2D c coordinates = c)).
Proof.
  cbn zeta. split; repeat split.
Qed.

(** A mode that is none of the five leaves the fragment color as it is. *)
Lemma fragment_shader_other_mode
    (texture2D : vec2 F -> vec4 F) (c : vec4 F) (coordinates : vec2 F) (mode : Z) :
  mode < 0 \/ 4 < mode ->
  RectangleTest.Fragment_Shader_main mix true mode texture2D c coordinates = c.
Proof.
  intros Hmode. unfold RectangleTest.Fragment_Shader_main,
    RectangleTest.TEXTURING_MODE_ADDITION, RectangleTest.TEXTURING_MODE_MODULATION,
    RectangleTest.TEXTURING_MODE_DECALING, RectangleTest.TEXTURING_MODE_SUBTRACTION,
    RectangleTest.TEXTURING_MODE_REVERSE_SUBTRACTION.
  destruct (Z.eqb_spec mode 0), (Z.eqb_spec mode 3), (Z.eqb_spec mode 4),
    (Z.eqb_spec mode 1), (Z.eqb_spec mode 2); try lia; reflexivity.
Qed.

End WithFloat.
End FragmentShaderFacts.

(* ================================================================== *)
(** * Properties of [Mesh] *)

Module MeshFacts.
Import Vec Mesh.

Section WithFloat.
Context {F : Type} `{FloatOps F}.
Variables Geometry Material : Type.

(** C10.  A mesh constructed from a geometry and a material alone has the
    name "untitled mesh", position and rotation (0, 0, 0), scale (1, 1, 1)
    and no parent.  Whatever the other arguments are, [get_geometry] and
    [get_material] return the shared pointers given to the constructor (the
    same control blocks, of which the mesh holds a share), and the name is
    "untitled mesh". *)
Theorem mesh_defaults_and_accessors
    (geometry : shared_ptr Geometry) (material : shared_ptr Material)
    (position rotation scale : option (vec3 F))
    (parent : option (weak_ptr (Object (F := F)))) :
  let mesh := new_Mesh Geometry Material geometry material None None None None in
  let mesh' := new_Mesh Geometry Material geometry material
                 position rotation scale parent in
  (get_name (base Geometry Material mesh) = "untitled mesh"%string /\
   get_position (base Geometry Material mesh)
     = {| x3 := f_zero; y3 := f_zero; z3 := f_zero |} /\
   get_rotation (base Geometry Material mesh)
     = {| x3 := f_zero; y3 := f_zero; z3 := f_zero |} /\
   get_scale (base Geometry Material mesh)
     = {| x3 := f_one; y3 := f_one; z3 := f_one |} /\
   get_parent (base Geometry Material mesh) = weak_to None) /\
  (get_geometry Geometry Material mesh' = geometry /\
   get_material Geometry Material mesh' = material /\
   get_name (base Geometry Material mesh') = "untitled mesh"%string).
Proof.
  cbn zeta. repeat split.
Qed.

End WithFloat.
End MeshFacts.

(* ================================================================== *)
(** * Further properties of [ES2Shader] *)

Module ES2ShaderMore.
Import GL CInt CIntFacts ES2Shader ES2ShaderSpec ES2ShaderFacts.

#[local] Arguments to_int : simpl never.
#[local] Arguments to_uint : simpl never.
#[local] Arguments cleanup_calls : simpl never.
#[local] Arguments stage_log_calls : simpl never.
#[local] Arguments link_log_calls : simpl never.
#[local] Arguments resolve_calls : simpl never.

(** Rewrites [compile r s] by the lemma of the case at hand. *)
Ltac compile_case :=
  first
    [ rewrite compile_vertex_failed by assumption
    | rewrite compile_vertex_unusable by assumption
    | rewrite compile_fragment_failed by assumption
    | rewrite compile_fragment_unusable by assumption
    | rewrite compile_link_failed by assumption
    | rewrite compile_program_unusable by assumption
    | rewrite compile_succeeded by assumption ].

Lemma destroy_run (s : State) :
  destroy s =
  (tt, {| this := this s;
          gl_calls := gl_calls s ++ cleanup_calls (this s);
          cerr := cerr s |}).
Proof.
  unfold destroy, cleanup_calls. run_monad.
  destruct (_program (this s) =? -1); cbn.
  - rewrite app_nil_r. destruct s; reflexivity.
  - reflexivity.
Qed.

(** X1.  The destructor deletes the program the object holds, if it holds
    one, and leaves the object as it is.  After [cleanup] it makes no GL
    call: [cleanup] followed by destruction deletes the program once. *)
Theorem destructor_after_cleanup_deletes_once (s : State) :
  let held :=
    if _program (this s) =? -1 then []
    else [DeleteProgram (to_uint (_program (this s)))] in
  destroy s = (tt, {| this := this s;
                      gl_calls := gl_calls s ++ held;
                      cerr := cerr s |}) /\
  snd (destroy (snd (cleanup s))) = snd (cleanup s) /\
  gl_calls (snd (destroy (snd (cleanup s)))) = gl_calls s ++ held.
Proof.
  cbn zeta. split; [apply destroy_run|].
  rewrite destroy_run, cleanup_run. cbn.
  rewrite app_nil_r. split; reflexivity.
Qed.

(** ** Shader objects *)

Lemma live_shaders_app (t1 t2 : list Call) :
  forall live, live_shaders live (t1 ++ t2) = live_shaders (live_shaders live t1) t2.
Proof.
  induction t1 as [|c t1 IH]; intros live; cbn; [reflexivity|].
  destruct c; apply IH.
Qed.

Lemma live_shaders_queries {A : Type} (f : A -> Call) (xs : list A) (live : list Z) :
  (forall x, is_location_query (f x) = true) ->
  live_shaders live (map f xs) = live.
Proof.
  intros Hf. induction xs as [|x xs IH]; cbn; [reflexivity|].
  specialize (Hf x). destruct (f x); cbn in Hf; try discriminate; exact IH.
Qed.

Lemma remove_both (a b : Z) :
  remove Z.eq_dec b (remove Z.eq_dec a [b; a]) = [].
Proof.
  cbn. destruct (Z.eq_dec a b) as [Hab|Hab]; cbn.
  - destruct (Z.eq_dec a a); [reflexivity | contradiction].
  - destruct (Z.eq_dec a a); [|contradiction]. cbn.
    destruct (Z.eq_dec b b); [reflexivity | contradiction].
Qed.

Lemma live_shaders_cleanup_calls (o : Object) (live : list Z) :
  live_shaders live (cleanup_calls o) = live.
Proof. unfold cleanup_calls. now destruct (_program o =? -1). Qed.

(** The calls of a [compile] whose link succeeds leave no shader object
    alive that they created. *)
Lemma live_shaders_after_link (r : Replies) (o : Object) :
  live_shaders []
    (cleanup_calls o
     ++ stage_calls (vertex_stage r) GL_VERTEX_SHADER (_vertex_shader_source o)
     ++ stage_calls (fragment_stage r) GL_FRAGMENT_SHADER (_fragment_shader_source o)
     ++ link_calls (link_stage r)
          (to_uint (shader_name (vertex_stage r)))
          (to_uint (shader_name (fragment_stage r)))
     ++ resolve_calls (link_stage r)
          (to_uint (shader_name (vertex_stage r)))
          (to_uint (shader_name (fragment_stage r)))
          (_attributes o) (_uniforms o)) = [].
Proof.
  rewrite live_shaders_app, live_shaders_cleanup_calls.
  rewrite !live_shaders_app. cbn [stage_calls link_calls live_shaders].
  unfold resolve_calls. rewrite !live_shaders_app.
  cbn [live_shaders]. rewrite remove_both.
  rewrite !live_shaders_queries by reflexivity. reflexivity.
Qed.

Lemma cleanup_calls_keep_shaders (o : Object) :
  existsb is_delete_shader (cleanup_calls o) = false.
Proof. unfold cleanup_calls. now destruct (_program o =? -1). Qed.

(** Discharges [existsb is_delete_shader t = false] for the transcript of a
    [compile] that did not reach the end of the link step. *)
Ltac no_delete_shader :=
  repeat (rewrite ?existsb_app; cbn);
  rewrite ?cleanup_calls_keep_shaders;
  rewrite ?stage_log_calls_plain by reflexivity;
  rewrite ?link_log_calls_plain by reflexivity;
  reflexivity.

(** X2.  [compile] deletes shader objects exactly when both stages compiled
    and the link succeeded: then both are deleted and none that the call
    created stays alive; in every other case the call makes no
    [glDeleteShader] at all, whatever it created. *)
Theorem shader_objects_deleted_iff_linked (r : Replies) (s : State) :
  exists new,
    gl_calls (snd (compile r s)) = gl_calls s ++ new /\
    (stage_ok (vertex_stage r) /\ stage_ok (fragment_stage r) /\
     link_ok (link_stage r) ->
       In (DeleteShader (to_uint (shader_name (vertex_stage r)))) new /\
       In (DeleteShader (to_uint (shader_name (fragment_stage r)))) new /\
       live_shaders [] new = []) /\
    (~ (stage_ok (vertex_stage r) /\ stage_ok (fragment_stage r) /\
        link_ok (link_stage r)) ->
       existsb is_delete_shader new = false).
Proof.
  assert (Hin : forall attrs unis,
    In (DeleteShader (to_uint (shader_name (vertex_stage r))))
       (resolve_calls (link_stage r) (to_uint (shader_name (vertex_stage r)))
          (to_uint (shader_name (fragment_stage r))) attrs unis) /\
    In (DeleteShader (to_uint (shader_name (fragment_stage r))))
       (resolve_calls (link_stage r) (to_uint (shader_name (vertex_stage r)))
          (to_uint (shader_name (fragment_stage r))) attrs unis)).
  { intros attrs unis. unfold resolve_calls. split; cbn; tauto. }
  destruct (classify r) as [Hv|Hv Hvn|Hv Hf|Hv Hf Hfn|Hv Hf Hl|Hv Hf Hl Hp|Hr];
    compile_case; cbn [snd gl_calls]; eexists; (split; [reflexivity|]).
  - split; [intros ([Hs _] & _); contradiction | intros _; no_delete_shader].
  - split; [intros ([_ Hn] & _); contradiction | intros _; no_delete_shader].
  - split; [intros (_ & [Hs _] & _); contradiction | intros _; no_delete_shader].
  - split; [intros (_ & [_ Hn] & _); contradiction | intros _; no_delete_shader].
  - split; [intros (_ & _ & Hs); contradiction | intros _; no_delete_shader].
  - split; [intros _ | intros Hnot; exfalso; apply Hnot; repeat split;
                        assumption || apply Hv || apply Hf].
    split; [|split]; [| |apply live_shaders_after_link];
      rewrite !in_app_iff; do 4 right; apply Hin.
  - destruct Hr as (Hv & Hf & Hl & Hp).
    split; [intros _ | intros Hnot; exfalso; apply Hnot; repeat split;
                        assumption || apply Hv || apply Hf].
    split; [|split]; [| |apply live_shaders_after_link];
      rewrite !in_app_iff; do 4 right; apply Hin.
Qed.

Lemma shader_objects_deleted_iff_linked_witness :
  (stage_ok (vertex_stage (replies_accepted 1 2 3)) /\
   stage_ok (fragment_stage (replies_accepted 1 2 3)) /\
   link_ok (link_stage (replies_accepted 1 2 3))) /\
  live_shaders [] (gl_calls (snd (compile (replies_accepted 1 2 3) sample_shader)))
    = [] /\
  ~ (stage_ok (vertex_stage replies_fragment_rejected) /\
     stage_ok (fragment_stage replies_fragment_rejected) /\
     link_ok (link_stage replies_fragment_rejected)) /\
  existsb is_delete_shader
    (gl_calls (snd (compile replies_fragment_rejected sample_shader))) = false.
Proof.
  assert (H1 : stage_ok (vertex_stage (replies_accepted 1 2 3)) /\
               stage_ok (fragment_stage (replies_accepted 1 2 3)) /\
               link_ok (link_stage (replies_accepted 1 2 3)))
    by (repeat split; vm_compute; discriminate).
  assert (H2 : ~ (stage_ok (vertex_stage replies_fragment_rejected) /\
                  stage_ok (fragment_stage replies_fragment_rejected) /\
                  link_ok (link_stage replies_fragment_rejected))).
  { intros (_ & [Hs _] & _). apply Hs. reflexivity. }
  split; [exact H1|].
  destruct (shader_objects_deleted_iff_linked (replies_accepted 1 2 3) sample_shader)
    as (new1 & E1 & Hyes & _).
  destruct (shader_objects_deleted_iff_linked replies_fragment_rejected sample_shader)
    as (new2 & E2 & _ & Hno).
  split; [|split; [exact H2|]].
  - rewrite E1. apply (Hyes H1).
  - rewrite E2. apply (Hno H2).
Defined.

(** ** The lifecycle *)

(** X3.  [compile] never ends Uninitialized: it ends Compiled, holding the
    program the driver created, when both stages compile, the link succeeds
    and the three object names are usable, and it ends Dead with handle -1
    in every other case. *)
Theorem compile_ends_compiled_or_dead (r : Replies) (s : State) :
  let s' := snd (compile r s) in
  (succeeds r /\
   lifecycle (this s') = Compiled /\
   _program (this s') = to_int (to_uint (program_name (link_stage r)))) \/
  (~ succeeds r /\
   lifecycle (this s') = Dead /\
   _program (this s') = -1).
Proof.
  cbn zeta.
  destruct (classify r) as [Hv|Hv Hvn|Hv Hf|Hv Hf Hfn|Hv Hf Hl|Hv Hf Hl Hp|Hr].
  - right. compile_case. split; [|split; reflexivity].
    intros ([Hs _] & _). contradiction.
  - right. compile_case. split; [|split; reflexivity].
    intros ([_ Hn] & _). contradiction.
  - right. compile_case. split; [|split; reflexivity].
    intros (_ & [Hs _] & _). contradiction.
  - right. compile_case. split; [|split; reflexivity].
    intros (_ & [_ Hn] & _). contradiction.
  - right. compile_case. split; [|split; reflexivity].
    intros (_ & _ & Hs & _). contradiction.
  - right. compile_case. split; [|split; reflexivity].
    intros (_ & _ & _ & Hn). contradiction.
  - left. split; [exact Hr|]. compile_case.
    destruct Hr as (_ & _ & _ & Hp). apply Z.eqb_neq in Hp.
    unfold lifecycle. cbn. rewrite Hp. split; reflexivity.
Qed.

(** ** What no operation changes *)

Lemma keys_assign (name : string) (v : Z) (m : LocationMap) :
  In name (map fst m) -> map fst (assign name v m) = map fst m.
Proof.
  induction m as [|[k w] m IH]; cbn; [contradiction|].
  intros [Hk|Hin].
  - subst k. now rewrite String.eqb_refl.
  - destruct (String.eqb k name); cbn; [reflexivity|]. now rewrite IH.
Qed.

Lemma keys_resolve (location : string -> Z) (names : LocationMap) :
  forall m : LocationMap,
  (forall entry, In entry names -> In (fst entry) (map fst m)) ->
  map fst (resolve location names m) = map fst m.
Proof.
  unfold resolve.
  induction names as [|entry names IH]; intros m Hin; cbn; [reflexivity|].
  rewrite IH.
  - apply keys_assign, Hin. now left.
  - intros e He. rewrite keys_assign by (apply Hin; now left).
    apply Hin. now right.
Qed.

Lemma keys_resolve_self (location : string -> Z) (m : LocationMap) :
  map fst (resolve location m m) = map fst m.
Proof. apply keys_resolve. intros entry Hin. now apply in_map. Qed.

Lemma append_assoc (a b c : string) : ((a ++ b) ++ c = a ++ (b ++ c))%string.
Proof. induction a as [|ch a IH]; cbn; [reflexivity | now rewrite IH]. Qed.

Lemma extends_refl (s : State) : extends s s.
Proof.
  repeat split.
  - exists []. now rewrite app_nil_r.
  - exists EmptyString. now rewrite append_empty_r.
Qed.

Lemma extends_trans (s1 s2 s3 : State) :
  extends s1 s2 -> extends s2 s3 -> extends s1 s3.
Proof.
  intros (Hv & Hf & Ha & Hu & [n1 Hn1] & [t1 Ht1])
         (Hv' & Hf' & Ha' & Hu' & [n2 Hn2] & [t2 Ht2]).
  repeat split; try congruence.
  - exists (n1 ++ n2). rewrite Hn2, Hn1. now rewrite app_assoc.
  - exists (t1 ++ t2)%string. rewrite Ht2, Ht1. apply append_assoc.
Qed.

Lemma compile_extends (r : Replies) (s : State) : extends s (snd (compile r s)).
Proof.
  unfold extends.
  destruct (classify r) as [Hv|Hv Hvn|Hv Hf|Hv Hf Hfn|Hv Hf Hl|Hv Hf Hl Hp|Hr];
    compile_case; cbn [snd this gl_calls cerr];
    unfold resolved; cbn [_vertex_shader_source _fragment_shader_source
      _attributes _uniforms with_dead with_program with_attributes with_uniforms];
    rewrite ?keys_resolve_self;
    (repeat split; [eexists; reflexivity|]);
    first [ eexists; reflexivity
          | exists EmptyString; now rewrite append_empty_r ].
Qed.

Lemma step_extends (op : Op) (s : State) : extends s (step op s).
Proof.
  destruct op as [r| |]; cbn [step].
  - apply compile_extends.
  - rewrite cleanup_run. cbn [snd]. unfold extends. cbn.
    repeat split; [eexists; reflexivity|].
    exists EmptyString. now rewrite append_empty_r.
  - rewrite use_run. cbn [snd]. unfold extends. cbn.
    repeat split; [eexists; reflexivity|].
    exists EmptyString. now rewrite append_empty_r.
Qed.

(** X4.  Whatever is done to a shader, by any sequence of [compile],
    [cleanup] and [use] from any state: the two source texts stay what they
    were, each table keeps its names in their order (no name is added, lost
    or moved, only locations change), and the transcript of GL calls and
    the text on [std::cerr] are only added to. *)
Theorem run_keeps_sources_and_names (ops : list Op) (s : State) :
  let s' := run ops s in
  _vertex_shader_source (this s') = _vertex_shader_source (this s) /\
  _fragment_shader_source (this s') = _fragment_shader_source (this s) /\
  map fst (_attributes (this s')) = map fst (_attributes (this s)) /\
  map fst (_uniforms (this s')) = map fst (_uniforms (this s)) /\
  (exists new, gl_calls s' = gl_calls s ++ new) /\
  (exists text, cerr s' = (cerr s ++ text)%string).
Proof.
  cbn zeta. change (extends s (run ops s)). unfold run.
  revert s. induction ops as [|op ops IH]; intros s; cbn [fold_left].
  - apply extends_refl.
  - apply (extends_trans s (step op s)); [apply step_extends | apply IH].
Qed.

(** ** Binding *)

(** X5.  After a [compile] that succeeds, [use] binds the very program
    object the driver created, also when its name is 2^31 or more and the
    [int] handle that stores it is negative; nothing was written to
    [std::cerr]. *)
Theorem use_after_compile_binds_created_program (r : Replies) (s : State) :
  succeeds r ->
  let s' := snd (compile r s) in
  gl_calls (snd (use s')) =
    gl_calls s' ++ [UseProgram (to_uint (program_name (link_stage r)))] /\
  In (CreateProgram (to_uint (program_name (link_stage r)))) (gl_calls s') /\
  cerr s' = cerr s.
Proof.
  intros Hr. cbn zeta. rewrite use_run. compile_case.
  destruct Hr as (_ & _ & _ & Hp). apply Z.eqb_neq in Hp.
  cbn [snd this gl_calls cerr _program with_dead with_program].
  rewrite Hp, to_uint_to_int, to_uint_idem.
  split; [reflexivity|]. split; [|reflexivity].
  rewrite !in_app_iff. do 4 right. left. now left.
Qed.

Lemma use_after_compile_binds_created_program_witness :
  succeeds (replies_accepted 1 2 3000000000) /\
  _program (this (snd (compile (replies_accepted 1 2 3000000000) sample_shader)))
    = -1294967296 /\
  gl_calls (snd (use (snd (compile (replies_accepted 1 2 3000000000)
                             sample_shader)))) =
  gl_calls (snd (compile (replies_accepted 1 2 3000000000) sample_shader))
  ++ [UseProgram 3000000000].
Proof.
  assert (H1 : succeeds (replies_accepted 1 2 3000000000))
    by (repeat split; vm_compute; discriminate).
  split; [exact H1|]. split; [reflexivity|].
  exact (proj1 (use_after_compile_binds_created_program
                  (replies_accepted 1 2 3000000000) sample_shader H1)).
Defined.

(** ** Failures that are not reported *)

(** X6.  A failure is written to [std::cerr] only if the driver reports a
    log of positive length.  When the step that fails (the vertex stage, the
    fragment stage, or the link) comes with a log length of 0 or less,
    [compile] ends Dead and [std::cerr] is what it was. *)
Theorem failure_without_log_is_silent (r : Replies) (s : State) :
  (stage_failed (vertex_stage r) /\
   to_int (shader_log_length (vertex_stage r)) <= 0) \/
  (stage_ok (vertex_stage r) /\ stage_failed (fragment_stage r) /\
   to_int (shader_log_length (fragment_stage r)) <= 0) \/
  (stage_ok (vertex_stage r) /\ stage_ok (fragment_stage r) /\
   link_failed (link_stage r) /\
   to_int (program_log_length (link_stage r)) <= 0) ->
  let s' := snd (compile r s) in
  lifecycle (this s') = Dead /\ cerr s' = cerr s.
Proof.
  cbn zeta. intros [(Hv & Hlen)|[(Hv & Hf & Hlen)|(Hv & Hf & Hl & Hlen)]];
    compile_case; cbn [snd this cerr];
    unfold compile_report, link_report;
    apply Z.ltb_ge in Hlen; rewrite Hlen, append_empty_r; split; reflexivity.
Qed.

Lemma failure_without_log_is_silent_witness :
  let r := {| vertex_stage := stage_accepted 1;
              fragment_stage := stage_accepted 2;
              link_stage := {| program_name := 3; link_status := GL_FALSE;
                               program_log_length := 0;
                               program_log := EmptyString;
                               attrib_location := sample_locations;
                               uniform_location := sample_locations |} |} in
  lifecycle (this (snd (compile r sample_shader))) = Dead /\
  cerr (snd (compile r sample_shader)) = cerr sample_shader.
Proof.
  cbn zeta.
  apply failure_without_log_is_silent.
  right. right. repeat split; try (vm_compute; discriminate).
Defined.




End ES2ShaderMore.

(* ================================================================== *)
(** * Nested counting loops as a fold over the cells of a grid *)

Module GridFacts.
Import CInt CIntFacts Loop LoopFacts Grid.

Lemma fold_left_flat_map {S A B : Type} (f : S -> B -> S) (g : A -> list B)
    (l : list A) :
  forall s, fold_left f (flat_map g l) s
            = fold_left (fun s x => fold_left f (g x) s) l s.
Proof.
  induction l as [|x l IH]; intros s; cbn; [reflexivity|].
  now rewrite fold_left_app, IH.
Qed.

Lemma fold_left_map {S A B : Type} (f : S -> B -> S) (h : A -> B) (l : list A) :
  forall s, fold_left f (map h l) s = fold_left (fun s x => f s (h x)) l s.
Proof. induction l as [|x l IH]; intros s; cbn; [reflexivity | apply IH]. Qed.

Lemma fold_left_append {A C : Type} (cell : C -> list A) (l : list C) :
  forall acc, fold_left (fun acc c => acc ++ cell c) l acc = acc ++ flat_map cell l.
Proof.
  induction l as [|c l IH]; intros acc; cbn.
  - now rewrite app_nil_r.
  - now rewrite IH, app_assoc.
Qed.

Lemma flat_map_ext_in {A B : Type} (f g : A -> list B) (l : list A) :
  (forall x, In x l -> f x = g x) -> flat_map f l = flat_map g l.
Proof.
  induction l as [|x l IH]; intros Hfg; cbn; [reflexivity|].
  rewrite Hfg by now left. rewrite IH; [reflexivity|].
  intros y Hy. apply Hfg. now right.
Qed.

Lemma flat_map_singleton {A B : Type} (f : A -> B) (l : list A) :
  flat_map (fun x => [f x]) l = map f l.
Proof. induction l as [|x l IH]; cbn; [reflexivity | now rewrite IH]. Qed.

Lemma fold_left_ext_seq {S : Type} (f g : S -> nat -> S) (l : list nat) :
  (forall k s, f s k = g s k) ->
  forall s, fold_left f l s = fold_left g l s.
Proof.
  intros Hfg. induction l as [|k l IH]; intros s; cbn; [reflexivity|].
  now rewrite Hfg, IH.
Qed.

(** ** The cells *)

Lemma in_cells (rows columns : Z) (cell : Z * Z) :
  In cell (cells rows columns) ->
  0 <= fst cell < rows /\ 0 <= snd cell < columns.
Proof.
  unfold cells. rewrite in_flat_map. intros (i & Hi & Hcell).
  apply in_map_iff in Hcell. destruct Hcell as (j & <- & Hj).
  apply in_seq in Hi. apply in_seq in Hj. cbn [fst snd]. lia.
Qed.

Lemma length_cells (rows columns : Z) :
  0 <= rows -> 0 <= columns ->
  Z.of_nat (List.length (cells rows columns)) = rows * columns.
Proof.
  intros Hr Hc. unfold cells.
  assert (Hlen : forall (r a : nat),
    List.length (flat_map (fun i => map (fun j => (Z.of_nat i, Z.of_nat j))
                                     (seq 0 (Z.to_nat columns))) (seq a r))
    = (r * Z.to_nat columns)%nat).
  { induction r as [|r IH]; intros a; cbn [seq flat_map]; [reflexivity|].
    rewrite length_app, length_map, length_seq, IH. reflexivity. }
  rewrite Hlen. rewrite Nat2Z.inj_mul, !Z2Nat.id by assumption. reflexivity.
Qed.

Lemma nth_error_rows {A : Type} (g : nat -> nat -> A) (c : nat) :
  forall (r a i j : nat),
    (i < r)%nat -> (j < c)%nat ->
    nth_error (flat_map (fun x => map (g x) (seq 0 c)) (seq a r)) (i * c + j)
    = Some (g (a + i)%nat j).
Proof.
  induction r as [|r IH]; intros a i j Hi Hj; [lia|].
  cbn [seq flat_map]. destruct i as [|i].
  - cbn [Nat.mul Nat.add].
    rewrite nth_error_app1 by (rewrite length_map, length_seq; exact Hj).
    rewrite nth_error_map, nth_error_seq.
    apply Nat.ltb_lt in Hj. rewrite Hj. cbn. now rewrite Nat.add_0_r.
  - rewrite nth_error_app2 by (rewrite length_map, length_seq; cbn; lia).
    rewrite length_map, length_seq.
    replace (S i * c + j - c)%nat with (i * c + j)%nat by (cbn; lia).
    rewrite IH by lia. now rewrite Nat.add_succ_r.
Qed.

(** The cell [(i, j)] is at position [i * columns + j]. *)
Lemma nth_error_cells (rows columns i j : Z) :
  0 <= i < rows -> 0 <= j < columns ->
  nth_error (cells rows columns) (Z.to_nat (i * columns + j)) = Some (i, j).
Proof.
  intros Hi Hj. unfold cells.
  replace (Z.to_nat (i * columns + j))
    with (Z.to_nat i * Z.to_nat columns + Z.to_nat j)%nat by nia.
  rewrite (nth_error_rows (fun x y => (Z.of_nat x, Z.of_nat y))) by lia.
  cbn [Nat.add]. now rewrite !Z2Nat.id by lia.
Qed.

(** ** The loops *)

(** A counting loop from 0 up to [hi] whose body always succeeds is the fold
    of the body over 0, ..., [hi - 1]. *)
Lemma for_uint_fold {S : Type} (hi : Z) (cond : Z -> bool)
    (body : Z -> S -> option S) (step : Z -> S -> S) :
  0 <= hi <= UINT_MAX ->
  (forall i, 0 <= i <= hi -> cond i = (i <? hi)) ->
  (forall i s, 0 <= i < hi -> body i s = Some (step i s)) ->
  forall (fuel : nat) (s : S),
    (Z.to_nat hi < fuel)%nat ->
    for_uint fuel cond body 0 s
    = Some (fold_left (fun s k => step (Z.of_nat k) s) (seq 0 (Z.to_nat hi)) s).
Proof.
  intros Hhi Hcond Hbody fuel s Hfuel.
  destruct (for_uint_below hi cond body
              (fun i s' => s' = fold_left (fun s k => step (Z.of_nat k) s)
                                          (seq 0 (Z.to_nat i)) s)
              Hhi Hcond) with (fuel := fuel) (i := 0) (s := s)
    as (s' & Hrun & ->); try lia.
  - intros i s' Hi ->. exists (step i (fold_left (fun s k => step (Z.of_nat k) s)
                                            (seq 0 (Z.to_nat i)) s)).
    split; [now apply Hbody|].
    replace (Z.to_nat (i + 1)) with (Datatypes.S (Z.to_nat i)) by lia.
    rewrite seq_S, fold_left_app. cbn [fold_left Nat.add].
    now rewrite Z2Nat.id by lia.
  - reflexivity.
  - exact Hrun.
Qed.

(** Two nested counting loops whose body always succeeds are the fold of the
    body over the cells of the grid, row by row. *)
Lemma nested_loops_fold {S : Type} (condI condJ : Z -> bool)
    (body : Z -> Z -> S -> option S) (step : Z * Z -> S -> S)
    (hi_i hi_j : Z) (fuel : nat) (s0 : S) :
  0 <= hi_i <= UINT_MAX ->
  0 <= hi_j <= UINT_MAX ->
  (forall i, 0 <= i <= hi_i -> condI i = (i <? hi_i)) ->
  (forall j, 0 <= j <= hi_j -> condJ j = (j <? hi_j)) ->
  (forall i j s, 0 <= i < hi_i -> 0 <= j < hi_j ->
     body i j s = Some (step (i, j) s)) ->
  (Z.to_nat hi_i < fuel)%nat ->
  (Z.to_nat hi_j < fuel)%nat ->
  for_uint fuel condI
    (fun i acc => for_uint fuel condJ (fun j acc => body i j acc) 0 acc) 0 s0
  = Some (fold_left (fun s c => step c s) (cells hi_i hi_j) s0).
Proof.
  intros Hhi_i Hhi_j HcondI HcondJ Hbody Hfuel_i Hfuel_j.
  rewrite (for_uint_fold hi_i condI _
             (fun i s => fold_left (fun s k => step (i, Z.of_nat k) s)
                                   (seq 0 (Z.to_nat hi_j)) s));
    try assumption.
  - unfold cells. rewrite fold_left_flat_map. f_equal.
    revert s0. apply fold_left_ext_seq. intros k s. now rewrite fold_left_map.
  - intros i s Hi.
    apply (for_uint_fold hi_j condJ (fun j acc => body i j acc)
             (fun j s => step (i, j) s)); try assumption.
    intros j s' Hj. now apply Hbody.
Qed.

(** The loops of the generators: the body appends the list of the cell. *)
Lemma nested_loops_append {A : Type} (condI condJ : Z -> bool)
    (body : Z -> Z -> list A -> option (list A)) (cell : Z * Z -> list A)
    (hi_i hi_j : Z) (fuel : nat) :
  0 <= hi_i <= UINT_MAX ->
  0 <= hi_j <= UINT_MAX ->
  (forall i, 0 <= i <= hi_i -> condI i = (i <? hi_i)) ->
  (forall j, 0 <= j <= hi_j -> condJ j = (j <? hi_j)) ->
  (forall i j acc, 0 <= i < hi_i -> 0 <= j < hi_j ->
     body i j acc = Some (acc ++ cell (i, j))) ->
  (Z.to_nat hi_i < fuel)%nat ->
  (Z.to_nat hi_j < fuel)%nat ->
  for_uint fuel condI
    (fun i acc => for_uint fuel condJ (fun j acc => body i j acc) 0 acc) 0 []
  = Some (flat_map cell (cells hi_i hi_j)).
Proof.
  intros Hhi_i Hhi_j HcondI HcondJ Hbody Hfuel_i Hfuel_j.
  rewrite (nested_loops_fold condI condJ body (fun c acc => acc ++ cell c)
             hi_i hi_j fuel []) by assumption.
  now rewrite fold_left_append.
Qed.

End GridFacts.

(* ================================================================== *)
(** * The generators in closed form *)

Module GeneratorMore.
Import CInt CIntFacts Loop LoopFacts Grid GridFacts.

(** Side conditions of [nested_loops_append]. *)
Ltac grid_side := first [ unfold UINT_MAX in *; lia | intros; reflexivity ].

(** Replaces the vertex loops of a generator by their closed form. *)
Ltac vertex_loops n m :=
  match goal with
  | |- context [for_uint ?fuel (fun a => a <=? n)
                  (fun row acc => for_uint ?fuel ?cj
                     (fun col acc' => Some (acc' ++ [@?V row col])) 0 acc)
                  0 []] =>
      let Hv := fresh "Hv" in
      pose proof (nested_loops_append (fun a => a <=? n) cj
                    (fun row col acc => Some (acc ++ [V row col]))
                    (fun c => [V (fst c) (snd c)])
                    (n + 1) (m + 1) fuel) as Hv;
      cbv beta in Hv; rewrite Hv by grid_side; clear Hv;
      rewrite flat_map_singleton
  end.

(** Replaces the index loops of a rectangle generator by their closed
    form. *)
Ltac index_loops n m :=
  match goal with
  | |- context [for_uint ?fuel (fun a => a <? n)
                  (fun row acc => for_uint ?fuel ?cj
                     (fun col acc' => Some (acc' ++ @?C row col)) 0 acc)
                  0 []] =>
      let Hi := fresh "Hi" in
      pose proof (nested_loops_append (fun a => a <? n) cj
                    (fun row col acc => Some (acc ++ C row col))
                    (fun c => C (fst c) (snd c))
                    n m fuel) as Hi;
      cbv beta in Hi; rewrite Hi by grid_side; clear Hi
  end.

(** Without overflow the [unsigned int] corner indices are the exact ones. *)
Lemma corner_indices_exact (m n i j : Z) :
  0 <= m -> 0 <= i < n -> 0 <= j < m ->
  (m + 1) * (n + 1) <= 4294967296 ->
  let index_a := to_uint (to_uint (i * to_uint (m + 1)) + j) in
  let index_c := to_uint (index_a + to_uint (m + 1)) in
  index_a = i * (m + 1) + j /\
  to_uint (index_a + 1) = i * (m + 1) + j + 1 /\
  index_c = i * (m + 1) + j + (m + 1) /\
  to_uint (index_c + 1) = i * (m + 1) + j + (m + 1) + 1.
Proof.
  intros Hm Hi Hj Hfit. cbn zeta.
  assert (Hrow : (i + 1) * (m + 1) <= n * (m + 1)) by nia.
  assert (H0 : 0 <= i * (m + 1)) by nia.
  rewrite (to_uint_small (m + 1)) by nia.
  rewrite (to_uint_small (i * (m + 1))) by nia.
  rewrite (to_uint_small (i * (m + 1) + j)) by nia.
  rewrite (to_uint_small (i * (m + 1) + j + 1)) by nia.
  rewrite (to_uint_small (i * (m + 1) + j + (m + 1))) by nia.
  rewrite (to_uint_small (i * (m + 1) + j + (m + 1) + 1)) by nia.
  repeat split.
Qed.

Lemma rectangle_triangles_exact (m n : Z) :
  0 <= m -> (m + 1) * (n + 1) <= 4294967296 ->
  flat_map (rectangle_triangles_uint m) (cells n m)
  = flat_map (rectangle_triangles m) (cells n m).
Proof.
  intros Hm Hfit. apply flat_map_ext_in. intros [i j] Hin.
  apply in_cells in Hin. cbn [fst snd] in Hin. destruct Hin as [Hi Hj].
  destruct (corner_indices_exact m n i j Hm Hi Hj Hfit) as (Ha & Hb & Hc & Hd).
  unfold rectangle_triangles_uint, rectangle_triangles. cbn [fst snd] in *.
  cbv zeta in *. rewrite Hd, Hc, Hb, Ha. reflexivity.
Qed.

Lemma sphere_triangles_exact (m n : Z) :
  0 <= m -> 0 < n -> (m + 1) * (n + 1) <= 4294967296 ->
  flat_map (sphere_triangles_uint m n) (cells n m)
  = flat_map (sphere_triangles m n) (cells n m).
Proof.
  intros Hm Hn Hfit. apply flat_map_ext_in. intros [i j] Hin.
  apply in_cells in Hin. cbn [fst snd] in Hin. destruct Hin as [Hi Hj].
  destruct (corner_indices_exact m n i j Hm Hi Hj Hfit) as (Ha & Hb & Hc & Hd).
  unfold sphere_triangles_uint, sphere_triangles. cbn [fst snd] in *.
  cbv zeta in *. rewrite Hd, Hc, Hb, Ha.
  rewrite (to_uint_small (n - 1)) by nia.
  destruct (i =? 0), (i =? n - 1); reflexivity.
Qed.

Lemma outline_rectangle (m : Z) (l : list (Z * Z)) :
  outline (flat_map (rectangle_triangles_uint m) l)
  = flat_map (rectangle_lines_uint m) l.
Proof.
  induction l as [|c l IH]; cbn [flat_map]; [reflexivity|].
  unfold rectangle_triangles_uint at 1, rectangle_lines_uint at 1. cbv zeta.
  cbn [app outline]. now rewrite IH.
Qed.

Section WithFloat.
Context {F : Type} `{FloatOps F}.

(** The rectangle generator in closed form, in machine arithmetic. *)
Lemma rectangle_geometry_closed_form (width height : F) (m n : Z) (fuel : nat) :
  0 <= m < UINT_MAX -> 0 <= n < UINT_MAX ->
  (Z.to_nat (Z.max m n) + 1 < fuel)%nat ->
  RectangleTest.generate_rectangle_geometry_data fuel width height m n
  = Some (map (rectangle_vertex width height m n) (cells (n + 1) (m + 1)),
          flat_map (rectangle_triangles_uint m) (cells n m)).
Proof.
  intros Hm Hn Hfuel.
  unfold RectangleTest.generate_rectangle_geometry_data. cbv zeta.
  vertex_loops n m. index_loops n m. reflexivity.
Qed.

Lemma rectangle_edges_closed_form (width height : F) (m n : Z) (fuel : nat) :
  0 <= m < UINT_MAX -> 0 <= n < UINT_MAX ->
  (Z.to_nat (Z.max m n) + 1 < fuel)%nat ->
  RectangleTest.generate_rectangle_edges_data fuel width height m n
  = Some (map (rectangle_vertex width height m n) (cells (n + 1) (m + 1)),
          flat_map (rectangle_lines_uint m) (cells n m)).
Proof.
  intros Hm Hn Hfuel.
  unfold RectangleTest.generate_rectangle_edges_data. cbv zeta.
  vertex_loops n m. index_loops n m. reflexivity.
Qed.

(** The sphere generator in closed form, in machine arithmetic. *)
Lemma sphere_geometry_closed_form (pi two_pi radius : F) (m n : Z) (fuel : nat) :
  0 <= m < UINT_MAX -> 0 <= n < UINT_MAX ->
  (Z.to_nat (Z.max m n) + 1 < fuel)%nat ->
  Transform1Test.generate_sphere_geometry_data pi two_pi fuel radius m n
  = Some (map (sphere_vertex pi two_pi radius m n) (cells (n + 1) (m + 1)),
          flat_map (sphere_triangles_uint m n) (cells n m)).
Proof.
  intros Hm Hn Hfuel.
  unfold Transform1Test.generate_sphere_geometry_data. cbv zeta.
  vertex_loops n m.
  match goal with
  | |- context [for_uint ?fuel (fun a => a <? n)
                  (fun row acc => for_uint ?fuel ?cj (@?B row) 0 acc) 0 []] =>
      rewrite (nested_loops_append (fun a => a <? n) cj B
                 (sphere_triangles_uint m n) n m fuel)
  end; try grid_side.
  intros i j acc _ _. unfold sphere_triangles_uint. cbn [fst snd]. cbv zeta.
  destruct (negb (i =? 0)), (negb (i =? to_uint (n - 1))); cbn [app];
    rewrite <- ?app_assoc, ?app_nil_r; reflexivity.
Qed.

(** X8.  For segment counts below [UINT_MAX] that give at most 2^32
    vertices, the rectangle generator returns the vertices of the grid row
    by row, the vertex of row [i] and column [j] being [rectangle_vertex],
    and, cell by cell, the two triangles [a, b, c] and [b, d, c] with
    [a = i*(m+1)+j], [b = a+1], [c = a+(m+1)], [d = c+1]: the [unsigned int]
    arithmetic does not wrap around. *)
Theorem rectangle_geometry_exact (width height : F) (m n : Z) (fuel : nat) :
  0 <= m < UINT_MAX -> 0 <= n < UINT_MAX ->
  (m + 1) * (n + 1) <= 4294967296 ->
  (Z.to_nat (Z.max m n) + 1 < fuel)%nat ->
  RectangleTest.generate_rectangle_geometry_data fuel width height m n
  = Some (map (rectangle_vertex width height m n) (cells (n + 1) (m + 1)),
          flat_map (rectangle_triangles m) (cells n m)).
Proof.
  intros Hm Hn Hfit Hfuel.
  rewrite rectangle_geometry_closed_form by assumption.
  rewrite rectangle_triangles_exact by (assumption || lia). reflexivity.
Qed.

(** X9.  In what the rectangle generator returns, the vertex of row [i] and
    column [j] is at position [i*(m+1)+j]: the corner indices [a], [b], [c]
    and [d] of a cell address the vertices of its four corners. *)
Theorem rectangle_vertex_positions (width height : F) (m n : Z) (fuel : nat) :
  0 <= m < UINT_MAX -> 0 <= n < UINT_MAX ->
  (Z.to_nat (Z.max m n) + 1 < fuel)%nat ->
  exists vertices indices,
    RectangleTest.generate_rectangle_geometry_data fuel width height m n
      = Some (vertices, indices) /\
    forall i j, 0 <= i <= n -> 0 <= j <= m ->
      nth_error vertices (Z.to_nat (i * (m + 1) + j))
      = Some (rectangle_vertex width height m n (i, j)).
Proof.
  intros Hm Hn Hfuel.
  rewrite rectangle_geometry_closed_form by assumption.
  eexists. eexists. split; [reflexivity|].
  intros i j Hi Hj.
  rewrite nth_error_map, nth_error_cells by lia. reflexivity.
Qed.

(** X10.  For the same arguments the line list of
    [generate_rectangle_edges_data] is the outline of the triangle list of
    [generate_rectangle_geometry_data]: the three sides of each triangle,
    in the order of the triangles; the vertices are the same. *)
Theorem rectangle_edges_outline_triangles (width height : F) (m n : Z) (fuel : nat) :
  0 <= m < UINT_MAX -> 0 <= n < UINT_MAX ->
  (Z.to_nat (Z.max m n) + 1 < fuel)%nat ->
  exists vertices triangles,
    RectangleTest.generate_rectangle_geometry_data fuel width height m n
      = Some (vertices, triangles) /\
    RectangleTest.generate_rectangle_edges_data fuel width height m n
      = Some (vertices, outline triangles).
Proof.
  intros Hm Hn Hfuel.
  rewrite rectangle_geometry_closed_form, rectangle_edges_closed_form by assumption.
  eexists. eexists. split; [reflexivity|].
  now rewrite outline_rectangle.
Qed.

(** The fold of the body of [generate_rectangle_vertices_data]. *)
Lemma fold_vertices_and_indices {C : Type} (V : C -> Asr.Vertex F) (l : list C) :
  forall vertices : list (Asr.Vertex F),
  fold_left
    (fun state c =>
       (fst state ++ [V c],
        snd state ++ [to_uint (Z.of_nat (List.length (fst state ++ [V c])) - 1)]))
    l
    (vertices, map (fun k => to_uint (Z.of_nat k)) (seq 0 (List.length vertices)))
  = (vertices ++ map V l,
     map (fun k => to_uint (Z.of_nat k))
         (seq 0 (List.length vertices + List.length l))).
Proof.
  induction l as [|c l IH]; intros vertices; cbn [fold_left fst snd map].
  - now rewrite app_nil_r, Nat.add_0_r.
  - assert (Hlen : List.length (vertices ++ [V c]) = S (List.length vertices))
      by (rewrite length_app; cbn; lia).
    assert (Hidx :
      map (fun k => to_uint (Z.of_nat k)) (seq 0 (List.length vertices))
      ++ [to_uint (Z.of_nat (List.length (vertices ++ [V c])) - 1)]
      = map (fun k => to_uint (Z.of_nat k))
            (seq 0 (List.length (vertices ++ [V c])))).
    { rewrite Hlen, seq_S, map_app. cbn [map Nat.add].
      do 3 f_equal. lia. }
    rewrite Hidx, IH, Hlen, <- app_assoc. cbn [app List.length].
    now rewrite Nat.add_succ_r.
Qed.

(** X11.  For segment counts below [UINT_MAX],
    [generate_rectangle_vertices_data] returns the vertices that
    [generate_rectangle_geometry_data] returns, and one index for each of
    them: the index pushed with the vertex at position [k] is [k] reduced
    modulo 2^32, which is [k] itself when there are at most 2^32 vertices. *)
Theorem rectangle_vertices_data_indexes_each_vertex
    (width height : F) (m n : Z) (fuel : nat) :
  0 <= m < UINT_MAX -> 0 <= n < UINT_MAX ->
  (Z.to_nat (Z.max m n) + 1 < fuel)%nat ->
  exists vertices triangles,
    RectangleTest.generate_rectangle_geometry_data fuel width height m n
      = Some (vertices, triangles) /\
    RectangleTest.generate_rectangle_vertices_data fuel width height m n
      = Some (vertices,
              map (fun k => to_uint (Z.of_nat k)) (seq 0 (List.length vertices))) /\
    Z.of_nat (List.length vertices) = (m + 1) * (n + 1) /\
    ((m + 1) * (n + 1) <= 4294967296 ->
       map (fun k => to_uint (Z.of_nat k)) (seq 0 (List.length vertices))
       = map Z.of_nat (seq 0 (List.length vertices))).
Proof.
  intros Hm Hn Hfuel.
  rewrite rectangle_geometry_closed_form by assumption.
  eexists. eexists. split; [reflexivity|].
  assert (Hlen : Z.of_nat (List.length (map (rectangle_vertex width height m n)
                                          (cells (n + 1) (m + 1))))
                 = (m + 1) * (n + 1)).
  { rewrite length_map, length_cells by lia. lia. }
  split; [|split; [exact Hlen|]].
  - unfold RectangleTest.generate_rectangle_vertices_data. cbv zeta.
    etransitivity.
    { apply (nested_loops_fold (fun i => i <=? n) (fun j => j <=? m)
               (fun i j state =>
                  Some (fst state ++ [rectangle_vertex width height m n (i, j)],
                        snd state ++
                          [to_uint (Z.of_nat (List.length
                             (fst state ++ [rectangle_vertex width height m n (i, j)]))
                           - 1)]))
               (fun c state =>
                  (fst state ++ [rectangle_vertex width height m n c],
                   snd state ++
                     [to_uint (Z.of_nat (List.length
                        (fst state ++ [rectangle_vertex width height m n c]))
                      - 1)]))
               (n + 1) (m + 1) fuel ([], [])); grid_side. }
    rewrite (fold_vertices_and_indices (rectangle_vertex width height m n)
               (cells (n + 1) (m + 1)) []).
    cbn [app List.length Nat.add]. now rewrite length_map.
  - intros Hfit. apply map_ext_in. intros k Hk. apply in_seq in Hk.
    apply to_uint_small. lia.
Qed.

(** X12.  Every vertex the rectangle generator returns lies in the plane
    z = 0, has the normal (0, 0, 1) and the color (1, 1, 1, 1). *)
Theorem rectangle_vertices_flat_and_white (width height : F) (m n : Z) (fuel : nat) :
  0 <= m < UINT_MAX -> 0 <= n < UINT_MAX ->
  (Z.to_nat (Z.max m n) + 1 < fuel)%nat ->
  exists vertices indices,
    RectangleTest.generate_rectangle_geometry_data fuel width height m n
      = Some (vertices, indices) /\
    Forall (fun vertex =>
              Asr.z vertex = f_zero /\
              (Asr.nx vertex, Asr.ny vertex, Asr.nz vertex) = (f_zero, f_zero, f_one) /\
              (Asr.r vertex, Asr.g vertex, Asr.b vertex, Asr.a vertex)
              = (f_one, f_one, f_one, f_one))
           vertices.
Proof.
  intros Hm Hn Hfuel.
  rewrite rectangle_geometry_closed_form by assumption.
  eexists. eexists. split; [reflexivity|].
  apply Forall_map, Forall_forall. intros c _. repeat split.
Qed.

(** X13.  Every vertex the sphere generator returns has the color
    (1, 1, 1, 1), and its position is its normal multiplied, component by
    component, by the radius. *)
Theorem sphere_vertices_scaled_normals
    (pi two_pi radius : F) (m n : Z) (fuel : nat) :
  0 <= m < UINT_MAX -> 0 <= n < UINT_MAX ->
  (Z.to_nat (Z.max m n) + 1 < fuel)%nat ->
  exists vertices indices,
    Transform1Test.generate_sphere_geometry_data pi two_pi fuel radius m n
      = Some (vertices, indices) /\
    Forall (fun vertex =>
              Asr.x vertex = (Asr.nx vertex * radius)%flt /\
              Asr.y vertex = (Asr.ny vertex * radius)%flt /\
              Asr.z vertex = (Asr.nz vertex * radius)%flt /\
              (Asr.r vertex, Asr.g vertex, Asr.b vertex, Asr.a vertex)
              = (f_one, f_one, f_one, f_one))
           vertices.
Proof.
  intros Hm Hn Hfuel.
  rewrite sphere_geometry_closed_form by assumption.
  eexists. eexists. split; [reflexivity|].
  apply Forall_map, Forall_forall. intros c _. repeat split.
Qed.

(** X14.  For a positive number of rings and segment counts below
    [UINT_MAX] that give at most 2^32 vertices, the sphere generator returns
    the vertices ring by ring, [sphere_vertex] for ring [i] and segment [j],
    and, cell by cell, the triangle [a, b, c] except in the first ring and
    the triangle [b, d, c] except in the last ring, with the corner indices
    of the rectangle generator. *)
Theorem sphere_geometry_exact (pi two_pi radius : F) (m n : Z) (fuel : nat) :
  0 <= m < UINT_MAX -> 0 < n < UINT_MAX ->
  (m + 1) * (n + 1) <= 4294967296 ->
  (Z.to_nat (Z.max m n) + 1 < fuel)%nat ->
  Transform1Test.generate_sphere_geometry_data pi two_pi fuel radius m n
  = Some (map (sphere_vertex pi two_pi radius m n) (cells (n + 1) (m + 1)),
          flat_map (sphere_triangles m n) (cells n m)).
Proof.
  intros Hm Hn Hfit Hfuel.
  rewrite sphere_geometry_closed_form by (assumption || unfold UINT_MAX in *; lia).
  rewrite sphere_triangles_exact by lia. reflexivity.
Qed.

(** X15.  Zero segments give vertices without faces.  With no segment in
    one direction the rectangle generator returns its [(m+1)*(n+1)] vertices
    and no index.  With no ring the sphere generator returns one row of
    [m + 1] vertices and no index ([height_segments_count - 1] wraps around
    to [UINT_MAX], but the index loops are not entered). *)
Theorem zero_segments_give_no_indices
    (width height pi two_pi radius : F) (m n : Z) (fuel : nat) :
  0 <= m < UINT_MAX -> 0 <= n < UINT_MAX ->
  (Z.to_nat (Z.max m n) + 1 < fuel)%nat ->
  (m = 0 \/ n = 0 ->
   exists vertices,
     RectangleTest.generate_rectangle_geometry_data fuel width height m n
       = Some (vertices, []) /\
     Z.of_nat (List.length vertices) = (m + 1) * (n + 1)) /\
  (n = 0 ->
   exists vertices,
     Transform1Test.generate_sphere_geometry_data pi two_pi fuel radius m n
       = Some (vertices, []) /\
     Z.of_nat (List.length vertices) = m + 1).
Proof.
  intros Hm Hn Hfuel.
  assert (Hempty : m = 0 \/ n = 0 -> cells n m = []).
  { intros [-> | ->]; unfold cells; cbn; [|reflexivity].
    induction (seq 0 (Z.to_nat n)) as [|k l IH]; cbn; [reflexivity | exact IH]. }
  split.
  - intros Hzero. rewrite rectangle_geometry_closed_form by assumption.
    rewrite (Hempty Hzero). eexists. split; [reflexivity|].
    rewrite length_map, length_cells by lia. lia.
  - intros ->. rewrite sphere_geometry_closed_form by assumption.
    rewrite (Hempty (or_intror eq_refl)). eexists. split; [reflexivity|].
    rewrite length_map, length_cells by lia. lia.
Qed.

(** The vertex loops are not left when a segment count is [UINT_MAX]. *)
Lemma vertex_loops_never_end {S : Type} (m n : Z) (fuel : nat)
    (body : Z -> Z -> S -> option S) (s : S) :
  0 <= m <= UINT_MAX -> 0 <= n <= UINT_MAX ->
  m = UINT_MAX \/ n = UINT_MAX ->
  for_uint fuel (fun i => i <=? n)
    (fun i acc => for_uint fuel (fun j => j <=? m) (fun j acc => body i j acc) 0 acc)
    0 s = None.
Proof.
  unfold UINT_MAX. intros Hm Hn Hmax.
  destruct (Z.eq_dec n 4294967295) as [->|Hn'].
  - apply for_uint_forever; [|lia]. intros i Hi. apply Z.leb_le. lia.
  - destruct Hmax as [->|]; [|contradiction].
    apply for_uint_first_fails.
    + apply Z.leb_le. lia.
    + apply for_uint_forever; [|lia]. intros j Hj. apply Z.leb_le. lia.
Qed.

(** Rewrites the vertex loops in [Hrun] by [None]. *)
Ltac never_left Hrun m n Hm Hn Hmax :=
  match type of Hrun with
  | context [for_uint ?fuel (fun a => a <=? n)
               (fun row acc => for_uint ?fuel ?cj
                  (fun col acc' => Some (acc' ++ [@?V row col])) 0 acc)
               0 []] =>
      let Hnone := fresh "Hnone" in
      pose proof (vertex_loops_never_end m n fuel
                    (fun row col acc => Some (acc ++ [V row col])) []
                    Hm Hn Hmax) as Hnone;
      cbv beta in Hnone; rewrite Hnone in Hrun; clear Hnone
  end.

(** X16.  For segment counts in the range of [unsigned int], the rectangle
    generator and the sphere generator return, given enough fuel, exactly
    when both counts are below [UINT_MAX]; with a count of [UINT_MAX] the
    vertex loops are never left. *)
Theorem generators_return_iff_below_UINT_MAX
    (width height pi two_pi radius : F) (m n : Z) :
  0 <= m <= UINT_MAX -> 0 <= n <= UINT_MAX ->
  ((exists fuel result,
      RectangleTest.generate_rectangle_geometry_data fuel width height m n
        = Some result)
   <-> m < UINT_MAX /\ n < UINT_MAX) /\
  ((exists fuel result,
      Transform1Test.generate_sphere_geometry_data pi two_pi fuel radius m n
        = Some result)
   <-> m < UINT_MAX /\ n < UINT_MAX).
Proof.
  intros Hm Hn.
  assert (Hcases : (m < UINT_MAX /\ n < UINT_MAX) \/ (m = UINT_MAX \/ n = UINT_MAX))
    by (unfold UINT_MAX in *; lia).
  split; split.
  - intros (fuel & result & Hrun).
    destruct Hcases as [Hlt|Hmax]; [exact Hlt|]. exfalso.
    unfold RectangleTest.generate_rectangle_geometry_data in Hrun.
    cbv zeta in Hrun.
    never_left Hrun m n Hm Hn Hmax.
    discriminate Hrun.
  - intros [Hm' Hn'].
    exists (S (S (Z.to_nat (Z.max m n)))). eexists.
    apply rectangle_geometry_closed_form; lia.
  - intros (fuel & result & Hrun).
    destruct Hcases as [Hlt|Hmax]; [exact Hlt|]. exfalso.
    unfold Transform1Test.generate_sphere_geometry_data in Hrun.
    cbv zeta in Hrun.
    never_left Hrun m n Hm Hn Hmax.
    discriminate Hrun.
  - intros [Hm' Hn'].
    exists (S (S (Z.to_nat (Z.max m n)))). eexists.
    apply sphere_geometry_closed_form; lia.
Qed.


End WithFloat.
(** ** The generators at concrete arguments *)

Lemma rectangle_geometry_exact_witness :
  0 <= 2 < UINT_MAX /\ 0 <= 1 < UINT_MAX /\
  (2 + 1) * (1 + 1) <= 4294967296 /\
  (Z.to_nat (Z.max 2 1) + 1 < 4)%nat /\
  RectangleTest.generate_rectangle_geometry_data (F := FloatTerm) 4 TOne THalf 2 1
  = Some (map (rectangle_vertex TOne THalf 2 1) (cells (1 + 1) (2 + 1)),
          flat_map (rectangle_triangles 2) (cells 1 2)).
Proof.
  assert (H2 : 0 <= 2 < UINT_MAX) by (unfold UINT_MAX; lia).
  assert (H1 : 0 <= 1 < UINT_MAX) by (unfold UINT_MAX; lia).
  assert (Hfit : (2 + 1) * (1 + 1) <= 4294967296) by lia.
  assert (Hfuel : (Z.to_nat (Z.max 2 1) + 1 < 4)%nat) by (cbn; lia).
  split; [exact H2|]. split; [exact H1|]. split; [exact Hfit|]. split; [exact Hfuel|].
  exact (rectangle_geometry_exact (F := FloatTerm) TOne THalf 2 1 4 H2 H1 Hfit Hfuel).
Defined.

Lemma rectangle_vertex_positions_witness :
  0 <= 2 < UINT_MAX /\ 0 <= 1 < UINT_MAX /\
  (Z.to_nat (Z.max 2 1) + 1 < 4)%nat /\
  exists vertices indices,
    RectangleTest.generate_rectangle_geometry_data (F := FloatTerm) 4 TOne THalf 2 1
      = Some (vertices, indices) /\
    forall i j, 0 <= i <= 1 -> 0 <= j <= 2 ->
      nth_error vertices (Z.to_nat (i * (2 + 1) + j))
      = Some (rectangle_vertex TOne THalf 2 1 (i, j)).
Proof.
  assert (H2 : 0 <= 2 < UINT_MAX) by (unfold UINT_MAX; lia).
  assert (H1 : 0 <= 1 < UINT_MAX) by (unfold UINT_MAX; lia).
  assert (Hfuel : (Z.to_nat (Z.max 2 1) + 1 < 4)%nat) by (cbn; lia).
  split; [exact H2|]. split; [exact H1|]. split; [exact Hfuel|].
  exact (rectangle_vertex_positions (F := FloatTerm) TOne THalf 2 1 4 H2 H1 Hfuel).
Defined.

Lemma rectangle_edges_outline_triangles_witness :
  0 <= 2 < UINT_MAX /\ 0 <= 1 < UINT_MAX /\
  (Z.to_nat (Z.max 2 1) + 1 < 4)%nat /\
  exists vertices triangles,
    RectangleTest.generate_rectangle_geometry_data (F := FloatTerm) 4 TOne THalf 2 1
      = Some (vertices, triangles) /\
    RectangleTest.generate_rectangle_edges_data 4 TOne THalf 2 1
      = Some (vertices, outline triangles).
Proof.
  assert (H2 : 0 <= 2 < UINT_MAX) by (unfold UINT_MAX; lia).
  assert (H1 : 0 <= 1 < UINT_MAX) by (unfold UINT_MAX; lia).
  assert (Hfuel : (Z.to_nat (Z.max 2 1) + 1 < 4)%nat) by (cbn; lia).
  split; [exact H2|]. split; [exact H1|]. split; [exact Hfuel|].
  exact (rectangle_edges_outline_triangles (F := FloatTerm) TOne THalf 2 1 4
           H2 H1 Hfuel).
Defined.

Lemma rectangle_vertices_data_indexes_each_vertex_witness :
  0 <= 2 < UINT_MAX /\ 0 <= 1 < UINT_MAX /\
  (Z.to_nat (Z.max 2 1) + 1 < 4)%nat /\
  exists vertices triangles,
    RectangleTest.generate_rectangle_geometry_data (F := FloatTerm) 4 TOne THalf 2 1
      = Some (vertices, triangles) /\
    RectangleTest.generate_rectangle_vertices_data 4 TOne THalf 2 1
      = Some (vertices,
              map (fun k => to_uint (Z.of_nat k)) (seq 0 (List.length vertices))) /\
    Z.of_nat (List.length vertices) = (2 + 1) * (1 + 1) /\
    ((2 + 1) * (1 + 1) <= 4294967296 ->
       map (fun k => to_uint (Z.of_nat k)) (seq 0 (List.length vertices))
       = map Z.of_nat (seq 0 (List.length vertices))).
Proof.
  assert (H2 : 0 <= 2 < UINT_MAX) by (unfold UINT_MAX; lia).
  assert (H1 : 0 <= 1 < UINT_MAX) by (unfold UINT_MAX; lia).
  assert (Hfuel : (Z.to_nat (Z.max 2 1) + 1 < 4)%nat) by (cbn; lia).
  split; [exact H2|]. split; [exact H1|]. split; [exact Hfuel|].
  exact (rectangle_vertices_data_indexes_each_vertex (F := FloatTerm)
           TOne THalf 2 1 4 H2 H1 Hfuel).
Defined.

Lemma rectangle_vertices_flat_and_white_witness :
  0 <= 2 < UINT_MAX /\ 0 <= 1 < UINT_MAX /\
  (Z.to_nat (Z.max 2 1) + 1 < 4)%nat /\
  exists vertices indices,
    RectangleTest.generate_rectangle_geometry_data (F := FloatTerm) 4 TOne THalf 2 1
      = Some (vertices, indices) /\
    Forall (fun vertex =>
              Asr.z vertex = f_zero /\
              (Asr.nx vertex, Asr.ny vertex, Asr.nz vertex) = (f_zero, f_zero, f_one) /\
              (Asr.r vertex, Asr.g vertex, Asr.b vertex, Asr.a vertex)
              = (f_one, f_one, f_one, f_one))
           vertices.
Proof.
  assert (H2 : 0 <= 2 < UINT_MAX) by (unfold UINT_MAX; lia).
  assert (H1 : 0 <= 1 < UINT_MAX) by (unfold UINT_MAX; lia).
  assert (Hfuel : (Z.to_nat (Z.max 2 1) + 1 < 4)%nat) by (cbn; lia).
  split; [exact H2|]. split; [exact H1|]. split; [exact Hfuel|].
  exact (rectangle_vertices_flat_and_white (F := FloatTerm) TOne THalf 2 1 4
           H2 H1 Hfuel).
Defined.

Lemma sphere_vertices_scaled_normals_witness :
  0 <= 3 < UINT_MAX /\ 0 <= 2 < UINT_MAX /\
  (Z.to_nat (Z.max 3 2) + 1 < 5)%nat /\
  exists vertices indices,
    Transform1Test.generate_sphere_geometry_data (TInput "pi") (TInput "two_pi")
      5 THalf 3 2 = Some (vertices, indices) /\
    Forall (fun vertex =>
              Asr.x vertex = (Asr.nx vertex * THalf)%flt /\
              Asr.y vertex = (Asr.ny vertex * THalf)%flt /\
              Asr.z vertex = (Asr.nz vertex * THalf)%flt /\
              (Asr.r vertex, Asr.g vertex, Asr.b vertex, Asr.a vertex)
              = (f_one, f_one, f_one, f_one))
           vertices.
Proof.
  assert (H3 : 0 <= 3 < UINT_MAX) by (unfold UINT_MAX; lia).
  assert (H2 : 0 <= 2 < UINT_MAX) by (unfold UINT_MAX; lia).
  assert (Hfuel : (Z.to_nat (Z.max 3 2) + 1 < 5)%nat) by (cbn; lia).
  split; [exact H3|]. split; [exact H2|]. split; [exact Hfuel|].
  exact (sphere_vertices_scaled_normals (F := FloatTerm)
           (TInput "pi") (TInput "two_pi") THalf 3 2 5 H3 H2 Hfuel).
Defined.

Lemma sphere_geometry_exact_witness :
  0 <= 3 < UINT_MAX /\ 0 < 2 < UINT_MAX /\
  (3 + 1) * (2 + 1) <= 4294967296 /\
  (Z.to_nat (Z.max 3 2) + 1 < 5)%nat /\
  Transform1Test.generate_sphere_geometry_data (TInput "pi") (TInput "two_pi")
    5 THalf 3 2
  = Some (map (sphere_vertex (TInput "pi") (TInput "two_pi") THalf 3 2)
              (cells (2 + 1) (3 + 1)),
          flat_map (sphere_triangles 3 2) (cells 2 3)).
Proof.
  assert (H3 : 0 <= 3 < UINT_MAX) by (unfold UINT_MAX; lia).
  assert (H2 : 0 < 2 < UINT_MAX) by (unfold UINT_MAX; lia).
  assert (Hfit : (3 + 1) * (2 + 1) <= 4294967296) by lia.
  assert (Hfuel : (Z.to_nat (Z.max 3 2) + 1 < 5)%nat) by (cbn; lia).
  split; [exact H3|]. split; [exact H2|]. split; [exact Hfit|]. split; [exact Hfuel|].
  exact (sphere_geometry_exact (F := FloatTerm)
           (TInput "pi") (TInput "two_pi") THalf 3 2 5 H3 H2 Hfit Hfuel).
Defined.

Lemma zero_segments_give_no_indices_witness :
  0 <= 3 < UINT_MAX /\ 0 <= 0 < UINT_MAX /\
  (Z.to_nat (Z.max 3 0) + 1 < 5)%nat /\
  (exists vertices,
     RectangleTest.generate_rectangle_geometry_data (F := FloatTerm) 5 TOne THalf 3 0
       = Some (vertices, []) /\
     Z.of_nat (List.length vertices) = (3 + 1) * (0 + 1)) /\
  (exists vertices,
     Transform1Test.generate_sphere_geometry_data (TInput "pi") (TInput "two_pi")
       5 THalf 3 0 = Some (vertices, []) /\
     Z.of_nat (List.length vertices) = 3 + 1).
Proof.
  assert (H3 : 0 <= 3 < UINT_MAX) by (unfold UINT_MAX; lia).
  assert (H0 : 0 <= 0 < UINT_MAX) by (unfold UINT_MAX; lia).
  assert (Hfuel : (Z.to_nat (Z.max 3 0) + 1 < 5)%nat) by (cbn; lia).
  split; [exact H3|]. split; [exact H0|]. split; [exact Hfuel|].
  destruct (zero_segments_give_no_indices (F := FloatTerm)
              TOne THalf (TInput "pi") (TInput "two_pi") THalf 3 0 5 H3 H0 Hfuel)
    as [Hrectangle Hsphere].
  split.
  - exact (Hrectangle (or_intror eq_refl)).
  - exact (Hsphere eq_refl).
Defined.

Lemma generators_return_iff_below_UINT_MAX_witness :
  0 <= 2 <= UINT_MAX /\ 0 <= UINT_MAX <= UINT_MAX /\
  ((exists fuel result,
      RectangleTest.generate_rectangle_geometry_data (F := FloatTerm)
        fuel TOne THalf 2 UINT_MAX = Some result)
   <-> 2 < UINT_MAX /\ UINT_MAX < UINT_MAX) /\
  ((exists fuel result,
      Transform1Test.generate_sphere_geometry_data (TInput "pi") (TInput "two_pi")
        fuel THalf 2 UINT_MAX = Some result)
   <-> 2 < UINT_MAX /\ UINT_MAX < UINT_MAX).
Proof.
  assert (H2 : 0 <= 2 <= UINT_MAX) by (unfold UINT_MAX; lia).
  assert (Hmax : 0 <= UINT_MAX <= UINT_MAX) by (unfold UINT_MAX; lia).
  split; [exact H2|]. split; [exact Hmax|].
  exact (generators_return_iff_below_UINT_MAX (F := FloatTerm)
           TOne THalf (TInput "pi") (TInput "two_pi") THalf 2 UINT_MAX H2 Hmax).
Defined.


End GeneratorMore.


(* ================================================================== *)
(** * Further properties of the shader programs *)

Module ShaderMore.
Import Vec.

Section WithFloat.
Context {F : Type} `{FloatOps F}.
Variable mix : vec3 F -> vec3 F -> F -> vec3 F.
Variable mat4 : Type.
Variable mat4_times : mat4 -> vec4 F -> vec4 F.

(** X17.  A texturing mode that is none of the five (below 0 or above 4)
    leaves the fragment color as it is, with texturing enabled or not, and
    the texture is not looked up: the output is the same for every sampler.
    This holds for the fragment shader of the rectangle test and for the
    one of the transformation test. *)
Theorem fragment_shader_ignores_unknown_modes
    (texture2D : vec2 F -> vec4 F) (c : vec4 F) (coordinates : vec2 F)
    (mode : Z) (enabled : bool) :
  mode < 0 \/ 4 < mode ->
  RectangleTest.Fragment_Shader_main mix enabled mode texture2D c coordinates = c /\
  Transform1Test.Fragment_Shader_main mix enabled mode texture2D c coordinates = c.
Proof.
  intros Hmode. destruct enabled; [|split; reflexivity].
  split.
  - now apply FragmentShaderFacts.fragment_shader_other_mode.
  - unfold Transform1Test.Fragment_Shader_main,
      Transform1Test.TEXTURING_MODE_ADDITION, Transform1Test.TEXTURING_MODE_MODULATION,
      Transform1Test.TEXTURING_MODE_DECALING, Transform1Test.TEXTURING_MODE_SUBTRACTION,
      Transform1Test.TEXTURING_MODE_REVERSE_SUBTRACTION.
    destruct (Z.eqb_spec mode 0), (Z.eqb_spec mode 3), (Z.eqb_spec mode 4),
      (Z.eqb_spec mode 1), (Z.eqb_spec mode 2); try lia; reflexivity.
Qed.

(** X18.  The shaders of the transformation test are those of the rectangle
    test without the point size: on every input the two fragment shaders
    output the same color, and the two vertex shaders the same position,
    the same color and the same texture coordinates, whatever the point
    size is. *)
Theorem shader_copies_agree
    (texture2D : vec2 F -> vec4 F) (c : vec4 F) (coordinates : vec2 F)
    (mode : Z) (enabled : bool)
    (position color texture_coordinates : vec4 F)
    (texture_transformation_matrix model_view_projection_matrix : mat4)
    (point_size : F) :
  let rectangle :=
    RectangleTest.Vertex_Shader_main mat4 mat4_times
      position color texture_coordinates enabled texture_transformation_matrix
      point_size model_view_projection_matrix in
  let transform :=
    Transform1Test.Vertex_Shader_main mat4 mat4_times
      position color texture_coordinates enabled texture_transformation_matrix
      model_view_projection_matrix in
  Transform1Test.Fragment_Shader_main mix enabled mode texture2D c coordinates
  = RectangleTest.Fragment_Shader_main mix enabled mode texture2D c coordinates /\
  Transform1Test.gl_Position transform
  = RectangleTest.gl_Position rectangle /\
  Transform1Test.fragment_color transform
  = RectangleTest.fragment_color rectangle /\
  Transform1Test.fragment_texture_coordinates transform
  = RectangleTest.fragment_texture_coordinates rectangle /\
  RectangleTest.gl_PointSize rectangle = point_size.
Proof.
  cbn zeta. repeat split.
Qed.

(** X19.  What the vertex shader of the rectangle test does not read.  The
    color it passes on and the position it outputs do not depend on the
    texture uniforms or on the texture coordinates; the texture coordinates
    it passes on do not depend on the position, the color or the third and
    fourth component of the [texture_coordinates] attribute; with texturing
    disabled it writes no texture coordinates. *)
Theorem vertex_shader_reads_what_it_needs
    (position color texture_coordinates : vec4 F)
    (position' color' texture_coordinates' : vec4 F)
    (enabled enabled' : bool)
    (texture_transformation_matrix texture_transformation_matrix' : mat4)
    (model_view_projection_matrix model_view_projection_matrix' : mat4)
    (point_size point_size' : F) :
  let run := RectangleTest.Vertex_Shader_main mat4 mat4_times in
  (let out := run position color texture_coordinates enabled
                texture_transformation_matrix point_size
                model_view_projection_matrix in
   let out' := run position color texture_coordinates' enabled'
                 texture_transformation_matrix' point_size'
                 model_view_projection_matrix in
   RectangleTest.gl_Position out' = RectangleTest.gl_Position out /\
   RectangleTest.fragment_color out' = RectangleTest.fragment_color out) /\
  (x4 texture_coordinates' = x4 texture_coordinates ->
   y4 texture_coordinates' = y4 texture_coordinates ->
   RectangleTest.fragment_texture_coordinates
     (run position' color' texture_coordinates' enabled
        texture_transformation_matrix point_size' model_view_projection_matrix')
   = RectangleTest.fragment_texture_coordinates
       (run position color texture_coordinates enabled
          texture_transformation_matrix point_size model_view_projection_matrix)) /\
  RectangleTest.fragment_texture_coordinates
    (run position color texture_coordinates false
       texture_transformation_matrix point_size model_view_projection_matrix)
  = None.
Proof.
  cbn zeta. split; [split; reflexivity|]. split; [|reflexivity].
  intros Hs Ht. unfold RectangleTest.Vertex_Shader_main. cbn.
  now rewrite Hs, Ht.
Qed.

End WithFloat.

Lemma fragment_shader_ignores_unknown_modes_witness :
  (7 < 0 \/ 4 < 7) /\
  RectangleTest.Fragment_Shader_main (F := FloatTerm) (fun a b w => b) true 7
    (fun _ => vec4_of_scalar TOne) (vec4_of_scalar THalf)
    {| s2 := TZero; t2 := TOne |}
  = vec4_of_scalar THalf /\
  Transform1Test.Fragment_Shader_main (F := FloatTerm) (fun a b w => b) true 7
    (fun _ => vec4_of_scalar TOne) (vec4_of_scalar THalf)
    {| s2 := TZero; t2 := TOne |}
  = vec4_of_scalar THalf.
Proof.
  assert (Hmode : 7 < 0 \/ 4 < 7) by (right; lia).
  split; [exact Hmode|].
  exact (fragment_shader_ignores_unknown_modes (F := FloatTerm) (fun a b w => b)
           (fun _ => vec4_of_scalar TOne) (vec4_of_scalar THalf)
           {| s2 := TZero; t2 := TOne |} 7 true Hmode).
Defined.

Lemma vertex_shader_reads_what_it_needs_witness :
  let texture_coordinates :=
    {| x4 := THalf; y4 := TOne; z4 := TZero; w4 := TOne |} in
  let texture_coordinates' :=
    {| x4 := THalf; y4 := TOne; z4 := TOne; w4 := THalf |} in
  x4 texture_coordinates' = x4 texture_coordinates /\
  y4 texture_coordinates' = y4 texture_coordinates /\
  RectangleTest.fragment_texture_coordinates
    (RectangleTest.Vertex_Shader_main (F := FloatTerm) unit (fun _ v => v)
       (vec4_of_scalar TOne) (vec4_of_scalar THalf) texture_coordinates' true
       tt TOne tt)
  = RectangleTest.fragment_texture_coordinates
      (RectangleTest.Vertex_Shader_main (F := FloatTerm) unit (fun _ v => v)
         (vec4_of_scalar TZero) (vec4_of_scalar TOne) texture_coordinates true
         tt THalf tt).
Proof.
  cbv zeta. split; [reflexivity|]. split; [reflexivity|].
  exact (proj1 (proj2
    (vertex_shader_reads_what_it_needs (F := FloatTerm) unit (fun _ v => v)
       (vec4_of_scalar TZero) (vec4_of_scalar TOne)
       {| x4 := THalf; y4 := TOne; z4 := TZero; w4 := TOne |}
       (vec4_of_scalar TOne) (vec4_of_scalar THalf)
       {| x4 := THalf; y4 := TOne; z4 := TOne; w4 := THalf |}
       true true tt tt tt tt THalf TOne))
    eq_refl eq_refl).
Defined.

End ShaderMore.
